(** * Word navigation and word deletion commands (vs/editor/contrib/wordOperations)

    A shallow embedding of the editor's word commands: the command classes of
    [wordOperations.ts] (MoveWordCommand, DeleteWordCommand and their
    registered subclasses) over the collaborators they import
    (WordCharacterClassifier, ITextModel, Position, Range, Selection and
    WordOperations), followed by the properties of the commands and of the
    word-boundary core. *)

From Stdlib Require Import ZArith Lia Bool.
From stdpp Require Import base option list gmap strings.

Local Open Scope Z_scope.
Local Open Scope nat_scope.

(** ** Core values *)

(** Line numbers and columns are 1-based; a column counts UTF-16 code units. *)
Record Position := mkPosition { lineNumber : nat; column : nat }.

Record Range := mkRange {
  startLineNumber : nat;
  startColumn : nat;
  endLineNumber : nat;
  endColumn : nat
}.

(** [new Selection(selectionStartLineNumber, selectionStartColumn,
    positionLineNumber, positionColumn)]: the anchor and the active end. *)
Record Selection := mkSelection {
  selectionStartLineNumber : nat;
  selectionStartColumn : nat;
  positionLineNumber : nat;
  positionColumn : nat
}.

#[global] Instance Position_eq_dec : EqDecision Position.
Proof. solve_decision. Defined.

#[global] Instance Range_eq_dec : EqDecision Range.
Proof. solve_decision. Defined.

#[global] Instance Selection_eq_dec : EqDecision Selection.
Proof. solve_decision. Defined.

(** Modelled from the spec: the [Range] constructor of vs/editor/common/core/range
    (not among the sources). The spec's data model keeps a range normalized,
    start before end in document order; the constructor swaps its ends when
    they come in the other order. *)
Definition Range_new (sl sc el ec : nat) : Range :=
  if (el <? sl) || ((sl =? el) && (ec <? sc))
  then mkRange el ec sl sc
  else mkRange sl sc el ec.

Definition Range_fromPositions (a b : Position) : Range :=
  Range_new (lineNumber a) (column a) (lineNumber b) (column b).

Definition Range_isEmpty (r : Range) : bool :=
  (startLineNumber r =? endLineNumber r) && (startColumn r =? endColumn r).

(** Modelled from the spec: [Selection] extends [Range]; read as a range it
    is the normalized span between its anchor and its active end. *)
Definition Selection_asRange (s : Selection) : Range :=
  Range_new (selectionStartLineNumber s) (selectionStartColumn s)
            (positionLineNumber s) (positionColumn s).

Definition Selection_isEmpty (s : Selection) : bool :=
  Range_isEmpty (Selection_asRange s).

Definition Selection_getPosition (s : Selection) : Position :=
  mkPosition (positionLineNumber s) (positionColumn s).

(** ** Character classification *)

Inductive WordCharacterClass := Regular | Whitespace | WordSeparator.

#[global] Instance WordCharacterClass_eq_dec : EqDecision WordCharacterClass.
Proof. solve_decision. Defined.

(** A JavaScript string is a sequence of UTF-16 code units. *)
Abbreviation JSString := (list Z).

Definition isHighSurrogate (c : Z) : bool := (0xD800 <=? c)%Z && (c <=? 0xDBFF)%Z.
Definition isLowSurrogate (c : Z) : bool := (0xDC00 <=? c)%Z && (c <=? 0xDFFF)%Z.

Definition computeCodePoint (hi lo : Z) : Z :=
  (Z.shiftl (hi - 0xD800) 10 + (lo - 0xDC00) + 0x10000)%Z.

(** The code points of a string: a high surrogate followed by a low one is
    one code point, any other code unit stands for itself. *)
Fixpoint codePoints (s : JSString) : list Z :=
  match s with
  | [] => []
  | hi :: tl =>
      match tl with
      | lo :: rest =>
          if isHighSurrogate hi && isLowSurrogate lo
          then computeCodePoint hi lo :: codePoints rest
          else hi :: codePoints tl
      | [] => [hi]
      end
  end.

(** Modelled from the spec: the Unicode whitespace test of the classifier
    (vs/editor/common/controller/wordCharacterClassifier is not among the
    sources). "Whitespace: the character is a space, tab, or any code point
    satisfying standard Unicode whitespace" -- the code points with the
    Unicode White_Space property. *)
Definition isUnicodeWhitespace (c : Z) : bool :=
  ((0x09 <=? c) && (c <=? 0x0D)
   || (c =? 0x20) || (c =? 0x85) || (c =? 0xA0) || (c =? 0x1680)
   || (0x2000 <=? c) && (c <=? 0x200A)
   || (c =? 0x2028) || (c =? 0x2029) || (c =? 0x202F) || (c =? 0x205F)
   || (c =? 0x3000))%Z.

(** Modelled from the spec: the direct computation of a class. Whitespace
    first, then the configured separator set, Regular for everything else
    (unknown and unassigned code points included). *)
Definition computeClass (separators : list Z) (c : Z) : WordCharacterClass :=
  if isUnicodeWhitespace c then Whitespace
  else if bool_decide (c ∈ separators) then WordSeparator
  else Regular.

(** Modelled from the spec: [WordCharacterClassifier]. The range 0-255 is
    precomputed into a lookup table, code points above it fall back to the
    direct computation. *)
Record WordCharacterClassifier := mkClassifier {
  _asciiMap : list WordCharacterClass;
  _separators : list Z
}.

Definition WordCharacterClassifier_new (wordSeparators : JSString)
  : WordCharacterClassifier :=
  let seps := codePoints wordSeparators in
  {| _asciiMap := (λ i, computeClass seps (Z.of_nat i)) <$> seq 0 256;
     _separators := seps |}.

Definition WordCharacterClassifier_get (k : WordCharacterClassifier) (c : Z)
  : WordCharacterClass :=
  if (0 <=? c)%Z && (c <? 256)%Z
  then default Regular (_asciiMap k !! Z.to_nat c)
  else computeClass (_separators k) c.

(** ** The classifier cache *)

(** A computation over the process-wide classifier cache, keyed by the
    separator string. *)
Definition Cached (A : Type) : Type :=
  gmap (list Z) WordCharacterClassifier → A * gmap (list Z) WordCharacterClassifier.

Definition cret {A} (a : A) : Cached A := λ c, (a, c).

Definition cbind {A B} (m : Cached A) (f : A → Cached B) : Cached B :=
  λ c, let '(a, c') := m c in f a c'.

Notation "x ←ᶜ m ; k" := (cbind m (λ x, k))
  (at level 100, m at next level, right associativity, only parsing).

Fixpoint cmapM {A B} (f : A → Cached B) (l : list A) : Cached (list B) :=
  match l with
  | [] => cret []
  | a :: l' =>
      b ←ᶜ f a;
      bs ←ᶜ cmapM f l';
      cret (b :: bs)
  end.

(** Modelled from the spec: [getMapForWordSeparators] of
    wordCharacterClassifier (not among the sources): a classifier is
    "constructed once per distinct separator-string value, cached keyed by
    that string", with no eviction. *)
Definition getMapForWordSeparators (wordSeparators : JSString)
  : Cached WordCharacterClassifier :=
  λ cache,
    match cache !! wordSeparators with
    | Some k => (k, cache)
    | None =>
        let k := WordCharacterClassifier_new wordSeparators in
        (k, <[wordSeparators := k]> cache)
    end.

(** The caches the program can be in: empty at start, then grown by calls
    of [getMapForWordSeparators] only. *)
Inductive reachableCache : gmap (list Z) WordCharacterClassifier → Prop :=
  | reachable_empty : reachableCache ∅
  | reachable_call s c :
      reachableCache c → reachableCache (getMapForWordSeparators s c).2.

(** ** The text model *)

(** The read-only line-oriented view the commands use of [ITextModel]:
    the buffer is its lines, each a sequence of code units. *)
Record ITextModel := mkModel { lines : list JSString }.

Definition getLineCount (m : ITextModel) : nat := length (lines m).

(** Line numbers are 1-based. A line number outside the buffer is a contract
    violation of the caller; it reads as an empty line here. *)
Definition getLineContent (m : ITextModel) (n : nat) : JSString :=
  match n with
  | S i => default [] (lines m !! i)
  | 0 => []
  end.

(** Modelled from the spec: "lineMaxColumn(lineNumber) -> integer
    (1 + code-unit length)". *)
Definition getLineMaxColumn (m : ITextModel) (n : nat) : nat :=
  length (getLineContent m n) + 1.

(** ** Navigation types and deletion context *)

Inductive WordNavigationType :=
  | WordStart
  | WordStartFast
  | WordEnd
  | WordAccessibility.

#[global] Instance WordNavigationType_eq_dec : EqDecision WordNavigationType.
Proof. solve_decision. Defined.

(** Modelled from the spec: the configuration inputs of a deletion
    ("autoClosingDelete: enabled|disabled|auto"; the bracket and quote
    configurations, of which the spec uses only whether they are disabled). *)
Inductive EditorAutoClosingEditStrategy :=
  | AutoClosingDelete_enabled
  | AutoClosingDelete_disabled
  | AutoClosingDelete_auto.

Inductive EditorAutoClosingStrategy :=
  | AutoClosing_languageDefined
  | AutoClosing_disabled.

(** A registered auto-closing pair: its opening and its closing character. *)
Record AutoClosingPair := mkPair { pair_open : Z; pair_close : Z }.

(** [DeleteWordContext], with the fields [DeleteWordCommand.runEditorCommand]
    fills in. The auto-closed characters are the positions of the closing
    characters the editor has recorded as inserted by itself. *)
Record DeleteWordContext := mkDeleteWordContext {
  wordSeparators : WordCharacterClassifier;
  model : ITextModel;
  selection : Selection;
  whitespaceHeuristics : bool;
  autoClosingDelete : EditorAutoClosingEditStrategy;
  autoClosingBrackets : EditorAutoClosingStrategy;
  autoClosingQuotes : EditorAutoClosingStrategy;
  autoClosingPairs : list AutoClosingPair;
  autoClosedCharacters : list Position
}.

(** The static interface of [WordOperations] (cursorWordOperations, not among
    the sources) as far as the commands call it. The deletions answer [None]
    for the source's [null]. *)
Class WordOperations := {
  moveWordLeft :
    WordCharacterClassifier → ITextModel → Position → WordNavigationType → Position;
  moveWordRight :
    WordCharacterClassifier → ITextModel → Position → WordNavigationType → Position;
  deleteWordLeft : DeleteWordContext → WordNavigationType → option Range;
  deleteWordRight : DeleteWordContext → WordNavigationType → option Range
}.

(** ** Key bindings *)

Inductive KeyCode := LeftArrow | RightArrow | Backspace | Delete.

#[global] Instance KeyCode_eq_dec : EqDecision KeyCode.
Proof. solve_decision. Defined.

(** A key chord [KeyMod.X | KeyMod.Y | KeyCode.K]: the modifier bits and the
    key code occupy disjoint bits, so the chord is the set of modifiers and
    the key. *)
Record Keybinding := mkKeybinding {
  ctrlCmd : bool;
  shift : bool;
  alt : bool;
  keyCode : KeyCode
}.

#[global] Instance Keybinding_eq_dec : EqDecision Keybinding.
Proof. solve_decision. Defined.

(** The context keys the word commands' [kbExpr] reads. *)
Record ContextKeys := mkContextKeys {
  textInputFocus : bool;
  accessibilityModeEnabled : bool;
  isWindows : bool
}.

Record KbOpts := mkKbOpts {
  kbExpr : ContextKeys → bool;
  primary : Keybinding;
  mac_primary : Keybinding
}.

(** [ContextKeyExpr.and(EditorContextKeys.textInputFocus,
      ContextKeyExpr.and(CONTEXT_ACCESSIBILITY_MODE_ENABLED, IsWindowsContext)?.negate())] *)
Definition kbExpr_wordNavigation (ctx : ContextKeys) : bool :=
  textInputFocus ctx && negb (accessibilityModeEnabled ctx && isWindows ctx).

(** The preconditions the word commands are registered with. *)
Inductive ContextKeyExpr := EditorContextKeys_writable.

(** ** MoveWordCommand and its subclasses *)

Record MoveWordOptions := mkMoveWordOptions {
  inSelectionMode : bool;
  wordNavigationType : WordNavigationType;
  id : string;
  precondition : option ContextKeyExpr;
  kbOpts : option KbOpts
}.

(** What a command does to the editor, in order. *)
Inductive EditorEffect :=
  | PushStackElement
  | SetCursorStates (source : string) (states : list Selection)
  | RevealPosition (pos : Position)
  | PushUndoStop
  | ExecuteCommands (source : string) (deleteRanges : list Range).

(** The editor as the commands read it: its model if it has one, the options
    they query and the current selections. *)
Record ICodeEditor := mkEditor {
  editor_model : option ITextModel;
  editor_wordSeparators : JSString;
  editor_selections : list Selection;
  editor_autoClosingDelete : EditorAutoClosingEditStrategy;
  editor_autoClosingBrackets : EditorAutoClosingStrategy;
  editor_autoClosingQuotes : EditorAutoClosingStrategy;
  editor_autoClosingPairs : list AutoClosingPair;
  editor_autoClosedCharacters : list Position
}.

Section Commands.
Context `{ops : WordOperations}.

(** [EditorOptions.wordSeparators.defaultValue] (editorOptions is not among
    the sources). *)
Variable wordSeparators_defaultValue : JSString.

(** A [MoveWordCommand] object: its options and the [_move] its class
    resolves to. *)
Record MoveWordCommand := mkMoveWordCommand {
  move_opts : MoveWordOptions;
  _move : WordCharacterClassifier → ITextModel → Position →
          WordNavigationType → Cached Position
}.

Definition _moveTo (from : Selection) (to : Position) (inSelectionMode : bool)
  : Selection :=
  if inSelectionMode then
    (* move just position *)
    mkSelection (selectionStartLineNumber from) (selectionStartColumn from)
                (lineNumber to) (column to)
  else
    (* move everything *)
    mkSelection (lineNumber to) (column to) (lineNumber to) (column to).

Definition MoveWordCommand_runEditorCommand (cmd : MoveWordCommand)
    (editor : ICodeEditor) : Cached (list EditorEffect) :=
  match editor_model editor with
  | None => cret []
  | Some model =>
      wordSeparators ←ᶜ getMapForWordSeparators (editor_wordSeparators editor);
      result ←ᶜ cmapM (λ sel,
          let inPosition := mkPosition (positionLineNumber sel) (positionColumn sel) in
          outPosition ←ᶜ _move cmd wordSeparators model inPosition
                            (wordNavigationType (move_opts cmd));
          cret (_moveTo sel outPosition (inSelectionMode (move_opts cmd))))
        (editor_selections editor);
      cret ([PushStackElement; SetCursorStates "moveWordCommand" result]
            ++ match result with
               | [r] => [RevealPosition
                           (mkPosition (positionLineNumber r) (positionColumn r))]
               | _ => []
               end)
  end.

Definition WordLeftCommand_move (wordSeparators : WordCharacterClassifier)
    (model : ITextModel) (position : Position)
    (wordNavigationType : WordNavigationType) : Cached Position :=
  cret (moveWordLeft wordSeparators model position wordNavigationType).

Definition WordRightCommand_move (wordSeparators : WordCharacterClassifier)
    (model : ITextModel) (position : Position)
    (wordNavigationType : WordNavigationType) : Cached Position :=
  cret (moveWordRight wordSeparators model position wordNavigationType).

Definition WordLeftCommand (opts : MoveWordOptions) : MoveWordCommand :=
  mkMoveWordCommand opts WordLeftCommand_move.

Definition WordRightCommand (opts : MoveWordOptions) : MoveWordCommand :=
  mkMoveWordCommand opts WordRightCommand_move.

Definition key (c s a : bool) (k : KeyCode) : Keybinding := mkKeybinding c s a k.

(** [KeyMod.CtrlCmd | KeyCode.LeftArrow] and [KeyMod.CtrlCmd | KeyCode.RightArrow]. *)
Definition ctrlLeft : Keybinding := key true false false LeftArrow.
Definition ctrlRight : Keybinding := key true false false RightArrow.

Definition CursorWordStartLeft : MoveWordCommand :=
  WordLeftCommand (mkMoveWordOptions false WordStart "cursorWordStartLeft" None None).

Definition CursorWordEndLeft : MoveWordCommand :=
  WordLeftCommand (mkMoveWordOptions false WordEnd "cursorWordEndLeft" None None).

Definition CursorWordLeft : MoveWordCommand :=
  WordLeftCommand (mkMoveWordOptions false WordStartFast "cursorWordLeft" None
    (Some {| kbExpr := kbExpr_wordNavigation;
             primary := key true false false LeftArrow;
             mac_primary := key false false true LeftArrow |})).

Definition CursorWordStartLeftSelect : MoveWordCommand :=
  WordLeftCommand (mkMoveWordOptions true WordStart "cursorWordStartLeftSelect" None None).

Definition CursorWordEndLeftSelect : MoveWordCommand :=
  WordLeftCommand (mkMoveWordOptions true WordEnd "cursorWordEndLeftSelect" None None).

Definition CursorWordLeftSelect : MoveWordCommand :=
  WordLeftCommand (mkMoveWordOptions true WordStartFast "cursorWordLeftSelect" None
    (Some {| kbExpr := kbExpr_wordNavigation;
             primary := key true true false LeftArrow;
             mac_primary := key false true true LeftArrow |})).

(** The accessibility commands override [_move]: the classifier they are
    given is dropped for the one of the default separators. *)
Definition CursorWordAccessibilityLeft_move (_ : WordCharacterClassifier)
    (model : ITextModel) (position : Position)
    (wordNavigationType : WordNavigationType) : Cached Position :=
  k ←ᶜ getMapForWordSeparators wordSeparators_defaultValue;
  WordLeftCommand_move k model position wordNavigationType.

Definition CursorWordAccessibilityLeft : MoveWordCommand :=
  mkMoveWordCommand
    (mkMoveWordOptions false WordAccessibility "cursorWordAccessibilityLeft" None None)
    CursorWordAccessibilityLeft_move.

Definition CursorWordAccessibilityLeftSelect : MoveWordCommand :=
  mkMoveWordCommand
    (mkMoveWordOptions true WordAccessibility "cursorWordAccessibilityLeftSelect" None None)
    CursorWordAccessibilityLeft_move.

Definition CursorWordStartRight : MoveWordCommand :=
  WordRightCommand (mkMoveWordOptions false WordStart "cursorWordStartRight" None None).

Definition CursorWordEndRight : MoveWordCommand :=
  WordRightCommand (mkMoveWordOptions false WordEnd "cursorWordEndRight" None
    (Some {| kbExpr := kbExpr_wordNavigation;
             primary := key true false false RightArrow;
             mac_primary := key false false true RightArrow |})).

Definition CursorWordRight : MoveWordCommand :=
  WordRightCommand (mkMoveWordOptions false WordEnd "cursorWordRight" None None).

Definition CursorWordStartRightSelect : MoveWordCommand :=
  WordRightCommand (mkMoveWordOptions true WordStart "cursorWordStartRightSelect" None None).

Definition CursorWordEndRightSelect : MoveWordCommand :=
  WordRightCommand (mkMoveWordOptions true WordEnd "cursorWordEndRightSelect" None
    (Some {| kbExpr := kbExpr_wordNavigation;
             primary := key true true false RightArrow;
             mac_primary := key false true true RightArrow |})).

Definition CursorWordRightSelect : MoveWordCommand :=
  WordRightCommand (mkMoveWordOptions true WordEnd "cursorWordRightSelect" None None).

Definition CursorWordAccessibilityRight_move (_ : WordCharacterClassifier)
    (model : ITextModel) (position : Position)
    (wordNavigationType : WordNavigationType) : Cached Position :=
  k ←ᶜ getMapForWordSeparators wordSeparators_defaultValue;
  WordRightCommand_move k model position wordNavigationType.

Definition CursorWordAccessibilityRight : MoveWordCommand :=
  mkMoveWordCommand
    (mkMoveWordOptions false WordAccessibility "cursorWordAccessibilityRight" None None)
    CursorWordAccessibilityRight_move.

Definition CursorWordAccessibilityRightSelect : MoveWordCommand :=
  mkMoveWordCommand
    (mkMoveWordOptions true WordAccessibility "cursorWordAccessibilityRightSelect" None None)
    CursorWordAccessibilityRight_move.

(** The move commands in the order of their [registerEditorCommand] calls. *)
Definition registeredMoveWordCommands : list MoveWordCommand :=
  [ CursorWordStartLeft; CursorWordEndLeft; CursorWordLeft;
    CursorWordStartLeftSelect; CursorWordEndLeftSelect; CursorWordLeftSelect;
    CursorWordStartRight; CursorWordEndRight; CursorWordRight;
    CursorWordStartRightSelect; CursorWordEndRightSelect; CursorWordRightSelect;
    CursorWordAccessibilityLeft; CursorWordAccessibilityLeftSelect;
    CursorWordAccessibilityRight; CursorWordAccessibilityRightSelect ].

(** The registered move commands whose primary key binding is [kb]. *)
Definition isBoundTo (kb : Keybinding) (cmd : MoveWordCommand) : bool :=
  match kbOpts (move_opts cmd) with
  | Some o => bool_decide (primary o = kb)
  | None => false
  end.

Definition moveCommandsBoundTo (kb : Keybinding) : list MoveWordCommand :=
  filter (λ cmd, isBoundTo kb cmd = true) registeredMoveWordCommands.

(** ** DeleteWordCommand and its subclasses *)

Record DeleteWordOptions := mkDeleteWordOptions {
  delete_whitespaceHeuristics : bool;
  delete_wordNavigationType : WordNavigationType;
  delete_id : string;
  delete_precondition : option ContextKeyExpr;
  delete_kbOpts : option KbOpts
}.

(** A [DeleteWordCommand] object: its options and the [_delete] its class
    resolves to. *)
Record DeleteWordCommand := mkDeleteWordCommand {
  delete_opts : DeleteWordOptions;
  _delete : DeleteWordContext → WordNavigationType → Range
}.

Definition DeleteWordCommand_runEditorCommand (cmd : DeleteWordCommand)
    (editor : ICodeEditor) : Cached (list EditorEffect) :=
  match editor_model editor with
  | None => cret []
  | Some model =>
      wordSeparators ←ᶜ getMapForWordSeparators (editor_wordSeparators editor);
      let commands :=
        (λ sel,
           _delete cmd
             {| wordSeparators := wordSeparators;
                model := model;
                selection := sel;
                whitespaceHeuristics := delete_whitespaceHeuristics (delete_opts cmd);
                autoClosingDelete := editor_autoClosingDelete editor;
                autoClosingBrackets := editor_autoClosingBrackets editor;
                autoClosingQuotes := editor_autoClosingQuotes editor;
                autoClosingPairs := editor_autoClosingPairs editor;
                autoClosedCharacters := editor_autoClosedCharacters editor |}
             (delete_wordNavigationType (delete_opts cmd)))
        <$> editor_selections editor in
      cret [PushUndoStop;
            ExecuteCommands (delete_id (delete_opts cmd)) commands;
            PushUndoStop]
  end.

Definition DeleteWordLeftCommand_delete (ctx : DeleteWordContext)
    (wordNavigationType : WordNavigationType) : Range :=
  match deleteWordLeft ctx wordNavigationType with
  | Some r => r
  | None => Range_new 1 1 1 1
  end.

Definition DeleteWordRightCommand_delete (ctx : DeleteWordContext)
    (wordNavigationType : WordNavigationType) : Range :=
  match deleteWordRight ctx wordNavigationType with
  | Some r => r
  | None =>
      let lineCount := getLineCount (model ctx) in
      let maxColumn := getLineMaxColumn (model ctx) lineCount in
      Range_new lineCount maxColumn lineCount maxColumn
  end.

Definition DeleteWordLeftCommand (opts : DeleteWordOptions) : DeleteWordCommand :=
  mkDeleteWordCommand opts DeleteWordLeftCommand_delete.

Definition DeleteWordRightCommand (opts : DeleteWordOptions) : DeleteWordCommand :=
  mkDeleteWordCommand opts DeleteWordRightCommand_delete.

Definition DeleteWordStartLeft : DeleteWordCommand :=
  DeleteWordLeftCommand
    (mkDeleteWordOptions false WordStart "deleteWordStartLeft"
       (Some EditorContextKeys_writable) None).

Definition DeleteWordEndLeft : DeleteWordCommand :=
  DeleteWordLeftCommand
    (mkDeleteWordOptions false WordEnd "deleteWordEndLeft"
       (Some EditorContextKeys_writable) None).

Definition DeleteWordLeft : DeleteWordCommand :=
  DeleteWordLeftCommand
    (mkDeleteWordOptions true WordStart "deleteWordLeft"
       (Some EditorContextKeys_writable)
       (Some {| kbExpr := textInputFocus;
                primary := key true false false Backspace;
                mac_primary := key false false true Backspace |})).

Definition DeleteWordStartRight : DeleteWordCommand :=
  DeleteWordRightCommand
    (mkDeleteWordOptions false WordStart "deleteWordStartRight"
       (Some EditorContextKeys_writable) None).

Definition DeleteWordEndRight : DeleteWordCommand :=
  DeleteWordRightCommand
    (mkDeleteWordOptions false WordEnd "deleteWordEndRight"
       (Some EditorContextKeys_writable) None).

Definition DeleteWordRight : DeleteWordCommand :=
  DeleteWordRightCommand
    (mkDeleteWordOptions true WordEnd "deleteWordRight"
       (Some EditorContextKeys_writable)
       (Some {| kbExpr := textInputFocus;
                primary := key true false false Delete;
                mac_primary := key false false true Delete |})).

(** The delete commands in the order of their [registerEditorCommand] calls. *)
Definition registeredDeleteWordCommands : list DeleteWordCommand :=
  [ DeleteWordStartLeft; DeleteWordEndLeft; DeleteWordLeft;
    DeleteWordStartRight; DeleteWordEndRight; DeleteWordRight ].

End Commands.

(** ** The word-boundary core *)

(** [WordOperations] lives in vs/editor/common/controller/cursorWordOperations,
    which is not among the sources; the definitions of this module are
    modelled from the specification of the WordBoundaryLocator and of the
    WordDeletionPlanner. *)
Module Core.
Section Core.

(** [EditorOptions.wordSeparators.defaultValue], the default separator
    configuration. *)
Variable wordSeparators_defaultValue : JSString.

(** Modelled from the spec: the class of every code unit of a line.
    "Every Unicode code point in a line maps to exactly one class": the
    two code units of a surrogate pair carry the class of their code
    point, so that no class changes in the middle of a pair. *)
Fixpoint lineClasses (k : WordCharacterClassifier) (l : JSString)
  : list WordCharacterClass :=
  match l with
  | [] => []
  | hi :: tl =>
      match tl with
      | lo :: rest =>
          if isHighSurrogate hi && isLowSurrogate lo
          then let c := WordCharacterClassifier_get k (computeCodePoint hi lo) in
               c :: c :: lineClasses k rest
          else WordCharacterClassifier_get k hi :: lineClasses k tl
      | [] => [WordCharacterClassifier_get k hi]
      end
  end.

(** The class of the character right after, and right before, column [c];
    [None] at the end and at the start of the line. *)
Definition classAfter (cs : list WordCharacterClass) (c : nat)
  : option WordCharacterClass :=
  match c with
  | S i => cs !! i
  | 0 => None
  end.

Definition classBefore (cs : list WordCharacterClass) (c : nat)
  : option WordCharacterClass :=
  match c with
  | S (S i) => cs !! i
  | _ => None
  end.

Definition isRegular (o : option WordCharacterClass) : bool :=
  bool_decide (o = Some Regular).

(** Modelled from the spec: WordStart, "the first character of a run of
    Regular characters immediately preceded by Whitespace or WordSeparator
    (or line start)". *)
Definition wordStartAt (cs : list WordCharacterClass) (c : nat) : bool :=
  isRegular (classAfter cs c) && negb (isRegular (classBefore cs c)).

(** Modelled from the spec: WordEnd, "the position immediately after the
    last character of a Regular run before a transition out to
    Whitespace/WordSeparator (or line end)". *)
Definition wordEndAt (cs : list WordCharacterClass) (c : nat) : bool :=
  isRegular (classBefore cs c) && negb (isRegular (classAfter cs c)).

(** Modelled from the spec: WordStartFast, start of word "stopping at
    separator-run boundaries too, not only Regular-run boundaries", while
    it "skips purely Whitespace runs silently": the first character of a
    run of Regular characters or of a run of WordSeparator characters. *)
Definition wordStartFastAt (cs : list WordCharacterClass) (c : nat) : bool :=
  match classAfter cs c with
  | Some Regular => negb (bool_decide (classBefore cs c = Some Regular))
  | Some WordSeparator => negb (bool_decide (classBefore cs c = Some WordSeparator))
  | _ => false
  end.

(** Modelled from the spec: "empty lines are treated as a single implicit
    Whitespace-class boundary". *)
Definition emptyLineAt (cs : list WordCharacterClass) (c : nat) : bool :=
  bool_decide (cs = []) && (c =? 1).

(** Modelled from the spec: the boundary rule each navigation type selects.
    The spec gives WordAccessibility its classifier and no rule of its own;
    it moves by start of word. *)
Definition isBoundary (nt : WordNavigationType) (cs : list WordCharacterClass)
    (c : nat) : bool :=
  emptyLineAt cs c ||
  match nt with
  | WordStart => wordStartAt cs c
  | WordEnd => wordEndAt cs c
  | WordStartFast => wordStartFastAt cs c
  | WordAccessibility => wordStartAt cs c
  end.

(** Modelled from the spec: WordAccessibility is "always computed using the
    DEFAULT separator configuration regardless of the caller's configured
    separators". *)
Definition classifierFor (nt : WordNavigationType) (k : WordCharacterClassifier)
  : WordCharacterClassifier :=
  match nt with
  | WordAccessibility => WordCharacterClassifier_new wordSeparators_defaultValue
  | _ => k
  end.

Definition classesOfLine (nt : WordNavigationType) (k : WordCharacterClassifier)
    (m : ITextModel) (n : nat) : list WordCharacterClass :=
  lineClasses (classifierFor nt k) (getLineContent m n).

(** Modelled from the spec: "scanning the current line's character classes
    from the position", leftwards: the nearest column below [c] (and at
    least 1) that satisfies [P]. *)
Fixpoint findBoundaryLeft (P : nat → bool) (c : nat) : option nat :=
  match c with
  | 0 => None
  | S b => if (0 <? b) && P b then Some b else findBoundaryLeft P b
  end.

(** Modelled from the spec: the same scan rightwards: the nearest column
    among [b], [b+1], ..., [b+fuel-1] that satisfies [P]. *)
Fixpoint findBoundaryRight (P : nat → bool) (fuel : nat) (b : nat) : option nat :=
  match fuel with
  | 0 => None
  | S fuel' => if P b then Some b else findBoundaryRight P fuel' (S b)
  end.

(** The last boundary of line [n], its max column included. *)
Definition lastBoundaryOnLine (nt : WordNavigationType)
    (k : WordCharacterClassifier) (m : ITextModel) (n : nat) : option nat :=
  let cs := classesOfLine nt k m n in
  findBoundaryLeft (isBoundary nt cs) (S (length cs + 1)).

(** The first boundary of line [n], its column 1 included. *)
Definition firstBoundaryOnLine (nt : WordNavigationType)
    (k : WordCharacterClassifier) (m : ITextModel) (n : nat) : option nat :=
  let cs := classesOfLine nt k m n in
  findBoundaryRight (isBoundary nt cs) (length cs + 1) 1.

(** Modelled from the spec: "left movement that reaches column 1 continues
    at the end of the previous line": lines [n], [n-1], ..., 1 are scanned
    from their max column. *)
Fixpoint scanLinesLeft (nt : WordNavigationType) (k : WordCharacterClassifier)
    (m : ITextModel) (n : nat) : option Position :=
  match n with
  | 0 => None
  | S n' =>
      match lastBoundaryOnLine nt k m n with
      | Some b => Some (mkPosition n b)
      | None => scanLinesLeft nt k m n'
      end
  end.

(** Modelled from the spec: "right movement that reaches the line's max
    column continues at column 1 of the next line": [fuel] lines from line
    [n] on are scanned from their column 1. *)
Fixpoint scanLinesRight (nt : WordNavigationType) (k : WordCharacterClassifier)
    (m : ITextModel) (fuel : nat) (n : nat) : option Position :=
  match fuel with
  | 0 => None
  | S fuel' =>
      match firstBoundaryOnLine nt k m n with
      | Some b => Some (mkPosition n b)
      | None => scanLinesRight nt k m fuel' (S n)
      end
  end.

(** Modelled from the spec: the boundary a left movement reaches, if there
    is one: the nearest one before the cursor on its line, else the scan
    goes on over the lines above ("when the current line is exhausted during
    a scan ... the scan continues onto the previous/next line"). *)
Definition boundaryLeft (k : WordCharacterClassifier) (m : ITextModel)
    (p : Position) (nt : WordNavigationType) : option Position :=
  let cs := classesOfLine nt k m (lineNumber p) in
  match findBoundaryLeft (isBoundary nt cs) (column p) with
  | Some b => Some (mkPosition (lineNumber p) b)
  | None => scanLinesLeft nt k m (lineNumber p - 1)
  end.

(** Modelled from the spec: the boundary a right movement reaches, if there
    is one: the nearest one after the cursor on its line, up to the max
    column, else the scan goes on over the lines below. *)
Definition boundaryRight (k : WordCharacterClassifier) (m : ITextModel)
    (p : Position) (nt : WordNavigationType) : option Position :=
  let cs := classesOfLine nt k m (lineNumber p) in
  match findBoundaryRight (isBoundary nt cs)
          (length cs + 1 - column p) (S (column p)) with
  | Some b => Some (mkPosition (lineNumber p) b)
  | None => scanLinesRight nt k m (getLineCount m - lineNumber p) (S (lineNumber p))
  end.

(** Modelled from the spec: "At document start, leftward movement that
    cannot continue returns the original position unchanged". *)
Definition moveWordLeft (k : WordCharacterClassifier) (m : ITextModel)
    (p : Position) (nt : WordNavigationType) : Position :=
  default p (boundaryLeft k m p nt).

(** Modelled from the spec: "At document end, rightward movement clamps to
    the last line's max column". *)
Definition moveWordRight (k : WordCharacterClassifier) (m : ITextModel)
    (p : Position) (nt : WordNavigationType) : Position :=
  default (mkPosition (getLineCount m) (getLineMaxColumn m (getLineCount m)))
          (boundaryRight k m p nt).

(** The columns [s], ..., [e-1] of a line hold a maximal run of Regular
    characters: all of them are Regular, the character before column [s]
    and the one at column [e] are not (or are the line's ends). *)
Definition isMaximalRegularRun (cs : list WordCharacterClass) (s e : nat) : bool :=
  (1 <=? s) && (s <? e)
  && forallb (λ i, isRegular (classAfter cs i)) (seq s (e - s))
  && negb (isRegular (classBefore cs s))
  && negb (isRegular (classAfter cs e)).

(** *** Deletion *)

Fixpoint countWhitespace (cs : list WordCharacterClass) : nat :=
  match cs with
  | Whitespace :: cs' => S (countWhitespace cs')
  | _ => 0
  end.

(** Modelled from the spec: the whitespace heuristic. The run of Whitespace
    between the cursor and the text in the direction of the deletion, on
    the cursor's line only; it counts when it is there and is "not a full
    line". *)
Definition whitespaceRunLeft (cs : list WordCharacterClass) (c : nat) : option nat :=
  let n := countWhitespace (rev (take (c - 1) cs)) in
  if (0 <? n) && (n <? length cs) then Some n else None.

Definition whitespaceRunRight (cs : list WordCharacterClass) (c : nat) : option nat :=
  let n := countWhitespace (drop (c - 1) cs) in
  if (0 <? n) && (n <? length cs) then Some n else None.

Definition isQuote (ch : Z) : bool :=
  ((ch =? 0x27) || (ch =? 0x22) || (ch =? 0x60))%Z.

Definition strategyEnabled (s : EditorAutoClosingStrategy) : bool :=
  match s with
  | AutoClosing_disabled => false
  | AutoClosing_languageDefined => true
  end.

(** Modelled from the spec: auto-closing-pair awareness. The character left
    of the cursor opens a registered pair, the character right of it is
    that pair's closing character and is recorded as auto-inserted; the
    [autoClosingDelete] configuration enables the widening and the bracket
    or quote configuration the pair falls under is not disabled. *)
Definition isAutoClosingPairDelete (ctx : DeleteWordContext) (p : Position) : bool :=
  match autoClosingDelete ctx with
  | AutoClosingDelete_disabled => false
  | _ =>
      let line := getLineContent (model ctx) (lineNumber p) in
      match column p with
      | S (S i) =>
          match line !! i, line !! S i with
          | Some l, Some r =>
              existsb (λ pr,
                  (pair_open pr =? l)%Z && (pair_close pr =? r)%Z &&
                  strategyEnabled (if isQuote l then autoClosingQuotes ctx
                                   else autoClosingBrackets ctx))
                (autoClosingPairs ctx)
              && bool_decide (p ∈ autoClosedCharacters ctx)
          | _, _ => false
          end
      | _ => false
      end
  end.

(** Modelled from the spec: the range between the cursor and the boundary a
    movement reached; "if no boundary can be computed (e.g., at document
    boundary with nothing to delete), the call signals no-op", which is when
    the movement did not move. *)
Definition rangeTo (p q : Position) : option Range :=
  if bool_decide (q = p) then None else Some (Range_fromPositions q p).

(** Modelled from the spec: [deleteWordLeft]. A non-empty selection is the
    deletion range itself; at a collapsed cursor the auto-closing pair is
    deleted as a whole, else the whitespace run when the heuristic is on,
    else the range to the boundary of [moveWordLeft]. The spec states the
    boundary for the default wiring (WordStart); the navigation type is the
    one the command passes. *)
Definition deleteWordLeft (ctx : DeleteWordContext) (nt : WordNavigationType)
  : option Range :=
  let sel := selection ctx in
  if negb (Selection_isEmpty sel) then Some (Selection_asRange sel)
  else
    let p := Selection_getPosition sel in
    if isAutoClosingPairDelete ctx p then
      Some (Range_new (lineNumber p) (column p - 1) (lineNumber p) (column p + 1))
    else
      let cs := classesOfLine nt (wordSeparators ctx) (model ctx) (lineNumber p) in
      match (if whitespaceHeuristics ctx then whitespaceRunLeft cs (column p)
             else None) with
      | Some n => Some (Range_new (lineNumber p) (column p - n)
                                  (lineNumber p) (column p))
      | None => rangeTo p (moveWordLeft (wordSeparators ctx) (model ctx) p nt)
      end.

(** Modelled from the spec: [deleteWordRight], the mirror image without the
    auto-closing pair rule (default wiring: WordEnd). *)
Definition deleteWordRight (ctx : DeleteWordContext) (nt : WordNavigationType)
  : option Range :=
  let sel := selection ctx in
  if negb (Selection_isEmpty sel) then Some (Selection_asRange sel)
  else
    let p := Selection_getPosition sel in
    let cs := classesOfLine nt (wordSeparators ctx) (model ctx) (lineNumber p) in
    match (if whitespaceHeuristics ctx then whitespaceRunRight cs (column p)
           else None) with
    | Some n => Some (Range_new (lineNumber p) (column p)
                                (lineNumber p) (column p + n))
    | None => rangeTo p (moveWordRight (wordSeparators ctx) (model ctx) p nt)
    end.

End Core.
End Core.

(** The modelled core as an implementation of the interface the commands
    call. *)
Definition coreWordOperations (defaultValue : JSString) : WordOperations :=
  {| moveWordLeft := Core.moveWordLeft defaultValue;
     moveWordRight := Core.moveWordRight defaultValue;
     deleteWordLeft := Core.deleteWordLeft defaultValue;
     deleteWordRight := Core.deleteWordRight defaultValue |}.

(** Test fixtures: a string literal as code units, and the separators
    [.()] used by the specification's examples. *)
Definition units (s : string) : JSString :=
  (λ a, Z.of_nat (Ascii.nat_of_ascii a)) <$> String.list_ascii_of_string s.

Definition exampleSeparators : JSString := units ".()".

Definition Pos (l c : nat) : Position := mkPosition l c.

Definition exampleClassifier : WordCharacterClassifier :=
  WordCharacterClassifier_new exampleSeparators.

(** A ranged selection, [f[oo (]|)], with the heuristic and the auto-closing
    rule both in force. *)
Definition ctxRanged : DeleteWordContext :=
  {| wordSeparators := exampleClassifier;
     model := mkModel [units "foo  ()"];
     selection := mkSelection 1 2 1 7;
     whitespaceHeuristics := true;
     autoClosingDelete := AutoClosingDelete_enabled;
     autoClosingBrackets := AutoClosing_languageDefined;
     autoClosingQuotes := AutoClosing_languageDefined;
     autoClosingPairs := [mkPair 40 41];
     autoClosedCharacters := [Pos 1 7] |}.

(** ** Observing what a command did *)

(** The cursor states a run of effects set, the positions it revealed and
    the edits it executed, oldest first. *)
Definition cursorStatesSet (effects : list EditorEffect) : list (list Selection) :=
  omap (λ e, match e with SetCursorStates _ states => Some states | _ => None end)
       effects.

Definition positionsRevealed (effects : list EditorEffect) : list Position :=
  omap (λ e, match e with RevealPosition p => Some p | _ => None end) effects.

Definition selectionAnchor (s : Selection) : Position :=
  mkPosition (selectionStartLineNumber s) (selectionStartColumn s).

(** The editor with another value of its [wordSeparators] option. *)
Definition ICodeEditor_withWordSeparators (s : JSString) (e : ICodeEditor)
  : ICodeEditor :=
  {| editor_model := editor_model e;
     editor_wordSeparators := s;
     editor_selections := editor_selections e;
     editor_autoClosingDelete := editor_autoClosingDelete e;
     editor_autoClosingBrackets := editor_autoClosingBrackets e;
     editor_autoClosingQuotes := editor_autoClosingQuotes e;
     editor_autoClosingPairs := editor_autoClosingPairs e;
     editor_autoClosedCharacters := editor_autoClosedCharacters e |}.

(** The positions a move command computes, one per selection, threading the
    cache from the lookup of the editor's separators on. *)
Definition positionsOf (cmd : MoveWordCommand) (editor : ICodeEditor)
    (m : ITextModel) : Cached (list Position) :=
  k ←ᶜ getMapForWordSeparators (editor_wordSeparators editor);
  cmapM (λ sel, _move cmd k m (Selection_getPosition sel)
                  (wordNavigationType (move_opts cmd)))
        (editor_selections editor).

Definition effectsOfMove (result : list Selection) : list EditorEffect :=
  [PushStackElement; SetCursorStates "moveWordCommand" result]
  ++ match result with
     | [r] => [RevealPosition (Selection_getPosition r)]
     | _ => []
     end.

Section CommandTables.
Context `{ops : WordOperations}.
Variable wordSeparators_defaultValue : JSString.

(** Each move command that leaves the selection mode off, with the command
    of the same direction and navigation type that turns it on. *)
Definition selectCounterparts : list (MoveWordCommand * MoveWordCommand) :=
  [ (CursorWordStartLeft, CursorWordStartLeftSelect);
    (CursorWordEndLeft, CursorWordEndLeftSelect);
    (CursorWordLeft, CursorWordLeftSelect);
    (CursorWordStartRight, CursorWordStartRightSelect);
    (CursorWordEndRight, CursorWordEndRightSelect);
    (CursorWordRight, CursorWordRightSelect);
    (CursorWordAccessibilityLeft wordSeparators_defaultValue,
     CursorWordAccessibilityLeftSelect wordSeparators_defaultValue);
    (CursorWordAccessibilityRight wordSeparators_defaultValue,
     CursorWordAccessibilityRightSelect wordSeparators_defaultValue) ].

Definition accessibilityCommands : list MoveWordCommand :=
  [ CursorWordAccessibilityLeft wordSeparators_defaultValue;
    CursorWordAccessibilityLeftSelect wordSeparators_defaultValue;
    CursorWordAccessibilityRight wordSeparators_defaultValue;
    CursorWordAccessibilityRightSelect wordSeparators_defaultValue ].

(** The ids under which the file registers its commands and its one action
    ([DeleteInsideWord], id [deleteInsideWord]), in registration order. *)
Definition registeredIds : list string :=
  ((λ cmd, id (move_opts cmd)) <$> registeredMoveWordCommands wordSeparators_defaultValue)
  ++ ((λ cmd, delete_id (delete_opts cmd)) <$> registeredDeleteWordCommands)
  ++ ["deleteInsideWord"].

(** The primary key bindings the registered commands declare. *)
Definition registeredPrimaryKeybindings : list Keybinding :=
  omap (λ cmd, primary <$> kbOpts (move_opts cmd))
       (registeredMoveWordCommands wordSeparators_defaultValue)
  ++ omap (λ cmd, primary <$> delete_kbOpts (delete_opts cmd))
          registeredDeleteWordCommands.

End CommandTables.

(** An editor with two cursors on [foo bar], one of them a ranged
    selection, and one with a single cursor. *)
Definition exampleEditor : ICodeEditor :=
  {| editor_model := Some (mkModel [units "foo bar"]);
     editor_wordSeparators := exampleSeparators;
     editor_selections := [mkSelection 1 1 1 6; mkSelection 1 8 1 8];
     editor_autoClosingDelete := AutoClosingDelete_auto;
     editor_autoClosingBrackets := AutoClosing_languageDefined;
     editor_autoClosingQuotes := AutoClosing_languageDefined;
     editor_autoClosingPairs := [mkPair 40 41];
     editor_autoClosedCharacters := [] |}.

Definition editsExecuted (effects : list EditorEffect) : list (string * list Range) :=
  omap (λ e, match e with
             | ExecuteCommands source ranges => Some (source, ranges)
             | _ => None
             end) effects.


(** ** Extension management: target platforms
    (vs/platform/extensionManagement/common/extensionManagement) *)

Module ExtensionManagement.

(** [const enum TargetPlatform], whose members are strings. *)
Inductive TargetPlatform :=
  | WIN32_X64 | WIN32_IA32 | WIN32_ARM64
  | LINUX_X64 | LINUX_ARM64 | LINUX_ARMHF
  | DARWIN_X64 | DARWIN_ARM64
  | WEB
  | UNIVERSAL | UNKNOWN | UNDEFINED.

#[global] Instance TargetPlatform_eq_dec : EqDecision TargetPlatform.
Proof. solve_decision. Defined.

(** The string each member of the enum is. *)
Definition TargetPlatform_value (p : TargetPlatform) : string :=
  match p with
  | WIN32_X64 => "win32-x64"
  | WIN32_IA32 => "win32-ia32"
  | WIN32_ARM64 => "win32-arm64"
  | LINUX_X64 => "linux-x64"
  | LINUX_ARM64 => "linux-arm64"
  | LINUX_ARMHF => "linux-armhf"
  | DARWIN_X64 => "darwin-x64"
  | DARWIN_ARM64 => "darwin-arm64"
  | WEB => "web"
  | UNIVERSAL => "universal"
  | UNKNOWN => "unknown"
  | UNDEFINED => "undefined"
  end.

(** [switch (targetPlatform)]: the cases in their order, compared with [===]. *)
Definition toTargetPlatform (targetPlatform : string) : TargetPlatform :=
  if String.eqb targetPlatform (TargetPlatform_value WIN32_X64) then WIN32_X64
  else if String.eqb targetPlatform (TargetPlatform_value WIN32_IA32) then WIN32_IA32
  else if String.eqb targetPlatform (TargetPlatform_value WIN32_ARM64) then WIN32_ARM64
  else if String.eqb targetPlatform (TargetPlatform_value LINUX_X64) then LINUX_X64
  else if String.eqb targetPlatform (TargetPlatform_value LINUX_ARM64) then LINUX_ARM64
  else if String.eqb targetPlatform (TargetPlatform_value LINUX_ARMHF) then LINUX_ARMHF
  else if String.eqb targetPlatform (TargetPlatform_value DARWIN_X64) then DARWIN_X64
  else if String.eqb targetPlatform (TargetPlatform_value DARWIN_ARM64) then DARWIN_ARM64
  else if String.eqb targetPlatform (TargetPlatform_value WEB) then WEB
  else if String.eqb targetPlatform (TargetPlatform_value UNIVERSAL) then UNIVERSAL
  else UNKNOWN.

(** [Platform] and [OperatingSystem] of vs/base/common/platform, with the
    members the two switches name. *)
Inductive Platform := Platform_Web | Platform_Mac | Platform_Linux | Platform_Windows.

Inductive OperatingSystem :=
  | OperatingSystem_Windows
  | OperatingSystem_Macintosh
  | OperatingSystem_Linux.

#[global] Instance Platform_eq_dec : EqDecision Platform.
Proof. solve_decision. Defined.

(** [arch: string | undefined]: [None] for [undefined]. *)
Definition archIs (arch : option string) (s : string) : bool :=
  match arch with
  | Some a => String.eqb a s
  | None => false
  end.

Definition getTargetPlatform (platform : Platform) (arch : option string)
  : TargetPlatform :=
  match platform with
  | Platform_Windows =>
      if archIs arch "x64" then WIN32_X64
      else if archIs arch "ia32" then WIN32_IA32
      else if archIs arch "arm64" then WIN32_ARM64
      else UNKNOWN
  | Platform_Linux =>
      if archIs arch "x64" then LINUX_X64
      else if archIs arch "arm64" then LINUX_ARM64
      else if archIs arch "arm" then LINUX_ARMHF
      else UNKNOWN
  | Platform_Mac =>
      if archIs arch "x64" then DARWIN_X64
      else if archIs arch "arm64" then DARWIN_ARM64
      else UNKNOWN
  | Platform_Web => WEB
  end.

Definition getTargetPlatformFromOS (os : OperatingSystem) (arch : string)
  : TargetPlatform :=
  let platform :=
    match os with
    | OperatingSystem_Windows => Platform_Windows
    | OperatingSystem_Linux => Platform_Linux
    | OperatingSystem_Macintosh => Platform_Mac
    end in
  getTargetPlatform platform (Some arch).

(** [CURRENT_TARGET_PLATFORM], for the [isWeb], [platform] and [arch] of the
    running process. *)
Definition CURRENT_TARGET_PLATFORM (isWeb : bool) (platform : Platform)
    (arch : option string) : TargetPlatform :=
  if isWeb then WEB else getTargetPlatform platform arch.

(** The operating system family a target platform belongs to, if any. *)
Definition platformOf (p : TargetPlatform) : option Platform :=
  match p with
  | WIN32_X64 | WIN32_IA32 | WIN32_ARM64 => Some Platform_Windows
  | LINUX_X64 | LINUX_ARM64 | LINUX_ARMHF => Some Platform_Linux
  | DARWIN_X64 | DARWIN_ARM64 => Some Platform_Mac
  | WEB => Some Platform_Web
  | UNIVERSAL | UNKNOWN | UNDEFINED => None
  end.

End ExtensionManagement.

(** ** JavaScript values *)

(** The values an [any] can hold, as far as the code below inspects them.
    Numbers are a parameter, with the test for the falsy ones (0, -0, NaN);
    functions are values of their own because [typeof] tells them apart. *)
Module JS.
Section Values.
Variable Num : Type.
Variable numIsFalsy : Num → bool.

#[warnings="-register-all"]
Inductive Value :=
  | Undefined
  | Null
  | Bool (b : bool)
  | Number (n : Num)
  | Str (s : string)
  | Object (fields : gmap string Value)
  | Function.

(** ToBoolean. *)
Definition truthy (v : Value) : bool :=
  match v with
  | Undefined | Null => false
  | Bool b => b
  | Number n => negb (numIsFalsy n)
  | Str s => negb (String.eqb s "")
  | Object _ | Function => true
  end.

Definition typeof (v : Value) : string :=
  match v with
  | Undefined => "undefined"
  | Null => "object"
  | Bool _ => "boolean"
  | Number _ => "number"
  | Str _ => "string"
  | Object _ => "object"
  | Function => "function"
  end.

(** [v.key] for a key no primitive wrapper has ([id], [uuid],
    [installDirectory]): [None] is the TypeError of reading a property of
    [undefined] or [null], a missing property reads as [undefined]. *)
Definition getProp (v : Value) (key : string) : option Value :=
  match v with
  | Undefined | Null => None
  | Object fields => Some (default Undefined (fields !! key))
  | _ => Some Undefined
  end.

(** [a || b]. *)
Definition or (a b : Value) : Value := if truthy a then a else b.

End Values.
End JS.

Arguments JS.Undefined {Num}.
Arguments JS.Null {Num}.
Arguments JS.Bool {Num} b.
Arguments JS.Number {Num} n.
Arguments JS.Str {Num} s.
Arguments JS.Object {Num} fields.
Arguments JS.Function {Num}.
Arguments JS.typeof {Num} v.
Arguments JS.getProp {Num} v key.

Module ExtensionIdentifier.
Section ExtensionIdentifier.
Variable Num : Type.
Variable numIsFalsy : Num → bool.

(** How the evaluation of an expression ends: with a value, or with an
    exception thrown. *)
Inductive Completion (A : Type) :=
  | Normal (a : A)
  | Throw.
#[global] Arguments Normal {A} a.
#[global] Arguments Throw {A}.

(** What the parameter [thing: any] can be bound to. [Data] is a value whose
    property reads run no code: a primitive, a function, or an object whose
    properties, own or inherited, are data properties, listed in its fields.
    [Symbol] and [BigInt] are the two primitives [JS.Value] leaves out.
    [Exotic] is an object whose property reads run code, an accessor
    property or a Proxy: [typeof] tells whether it is callable, and a read
    of a key in the state the object is in completes with a value or throws
    and leaves the object in a new state. *)
#[warnings="-register-all"]
Inductive AnyValue :=
  | Data (v : JS.Value Num)
  | Symbol
  | BigInt (n : Z)
  | Exotic (callable : bool) (State : Type) (state : State)
           (get : string → State → Completion AnyValue * State).

(** ToBoolean and [typeof]. *)
Definition truthy (v : AnyValue) : bool :=
  match v with
  | Data d => JS.truthy Num numIsFalsy d
  | Symbol => true
  | BigInt n => negb (n =? 0)%Z
  | Exotic _ _ _ _ => true
  end.

Definition typeof (v : AnyValue) : string :=
  match v with
  | Data d => JS.typeof d
  | Symbol => "symbol"
  | BigInt _ => "bigint"
  | Exotic callable _ _ _ => if callable then "function" else "object"
  end.

(** [thing.key], for a key no primitive wrapper has: the completion of the
    read and [thing] as the read leaves it. *)
Definition getProp (thing : AnyValue) (key : string) : Completion AnyValue * AnyValue :=
  match thing with
  | Data d =>
      (match JS.getProp d key with
       | Some v => Normal (Data v)
       | None => Throw
       end, thing)
  | Symbol | BigInt _ => (Normal (Data JS.Undefined), thing)
  | Exotic callable State state get =>
      let '(r, state') := get key state in
      (r, Exotic callable State state' get)
  end.

(** An expression over the variable [thing]: evaluated with [thing] as it
    is, it completes and leaves [thing] as its property reads made it. *)
Definition Expr := AnyValue → Completion AnyValue * AnyValue.

(** The variable [thing] itself. *)
Definition var : Expr := λ thing, (Normal thing, thing).

(** [thing.key]. *)
Definition member (key : string) : Expr := λ thing, getProp thing key.

(** [typeof e === s]. *)
Definition typeofIs (e : Expr) (s : string) : Expr :=
  λ thing,
    match e thing with
    | (Normal v, thing') => (Normal (Data (JS.Bool (String.eqb (typeof v) s))), thing')
    | (Throw, thing') => (Throw, thing')
    end.

(** [!e]. *)
Definition logicalNot (e : Expr) : Expr :=
  λ thing,
    match e thing with
    | (Normal v, thing') => (Normal (Data (JS.Bool (negb (truthy v)))), thing')
    | (Throw, thing') => (Throw, thing')
    end.

(** [a && b] and [a || b]: [b] is evaluated only when [a] completes with a
    truthy, respectively falsy, value, which is the result otherwise. *)
Definition logicalAnd (a b : Expr) : Expr :=
  λ thing,
    match a thing with
    | (Normal v, thing') => if truthy v then b thing' else (Normal v, thing')
    | (Throw, thing') => (Throw, thing')
    end.

Definition logicalOr (a b : Expr) : Expr :=
  λ thing,
    match a thing with
    | (Normal v, thing') => if truthy v then (Normal v, thing') else b thing'
    | (Throw, thing') => (Throw, thing')
    end.

(** [thing && typeof thing === 'object' && typeof thing.id === 'string'
     && (!thing.uuid || typeof thing.uuid === 'string')]; [&&] associates
    to the left. *)
Definition isIExtensionIdentifier : Expr :=
  logicalAnd
    (logicalAnd
       (logicalAnd var (typeofIs var "object"))
       (typeofIs (member "id") "string"))
    (logicalOr
       (logicalNot (member "uuid"))
       (typeofIs (member "uuid") "string")).

(** An object whose [id] is a string and whose [uuid] is a string or falsy. *)
Definition hasIdentifierShape (thing : JS.Value Num) : bool :=
  match thing with
  | JS.Object fields =>
      match fields !! "id" with
      | Some (JS.Str _) =>
          match fields !! "uuid" with
          | None | Some (JS.Str _) => true
          | Some uuid => negb (JS.truthy Num numIsFalsy uuid)
          end
      | _ => false
      end
  | _ => false
  end.

(** The arguments whose properties the function reads by running code: the
    objects of [Exotic] that are not callable. *)
Definition readsRunCode (thing : AnyValue) : bool :=
  match thing with
  | Exotic callable _ _ _ => negb callable
  | _ => false
  end.

(** The answer on an argument whose reads run no code. *)
Definition plainAnswer (thing : AnyValue) : AnyValue :=
  if truthy thing
  then Data (JS.Bool match thing with
                     | Data d => hasIdentifierShape d
                     | _ => false
                     end)
  else thing.

(** An object with a getter for [id] and one for [uuid], each completing
    the same way at every read; other keys read as [undefined]. *)
Definition getterObject (id uuid : Completion AnyValue) : AnyValue :=
  Exotic false unit ()
    (λ key _, (if String.eqb key "id" then id
               else if String.eqb key "uuid" then uuid
               else Normal (Data JS.Undefined), ())).

End ExtensionIdentifier.

Arguments Data {Num} v.
Arguments Symbol {Num}.
Arguments BigInt {Num} n.
Arguments Exotic {Num} callable State state get.
Arguments typeof {Num} v.
Arguments readsRunCode {Num} thing.
Arguments getterObject {Num} id uuid.

End ExtensionIdentifier.

(** ** The migration service client
    (extensions/sql-migration/src/service/serviceClient) *)

Module ServiceClient.
Section DownloadConfig.
Variable Num : Type.
Variable numIsFalsy : Num → bool.

(** [path.join] of two strings. *)
Variable path_join : string → string → string.

(** The configuration [downloadBinaries] hands to [new ServerProvider]:
    the parsed config.json with [installDirectory] joined to the extension
    path and [proxy] and [strictSSL] set from the [http] settings. [None]
    is the TypeError of a config that is [null] or has no string
    [installDirectory] for [path.join]. *)
Definition downloadBinaries_config (extensionPath : string)
    (config proxy proxyStrictSSL : JS.Value Num) : option (gmap string (JS.Value Num)) :=
  match config with
  | JS.Object fields =>
      match fields !! "installDirectory" with
      | Some (JS.Str installDirectory) =>
          Some (<["strictSSL" := JS.or Num numIsFalsy proxyStrictSSL (JS.Bool true)]>
                  (<["proxy" := proxy]>
                     (<["installDirectory" :=
                          JS.Str (path_join extensionPath installDirectory)]> fields)))
      | _ => None
      end
  | _ => None
  end.

End DownloadConfig.

Section ServerProviderEvents.

(** The values the downloader passes along with its events. *)
Variable Any : Type.
Variable undefined : Any.

(** [Math.ceil(x / 5)] for the download progress [x], and
    [Math.ceil(x / 1024).toLocaleString(language)] for its size. *)
Variable ceilFifth : Any → Z.
Variable sizeInKB : Any → Any.

(** [x >= LogLevel.Warning]. *)
Variable atLeastWarning : Any → bool.

(** The event names of [Events] the handler switches on; anything else
    falls to [default]. *)
Inductive Events :=
  | INSTALL_START | INSTALL_END
  | DOWNLOAD_START | DOWNLOAD_PROGRESS | DOWNLOAD_END
  | ENTRY_EXTRACTED | LOG_EMITTED
  | OtherEvent.

(** An argument of [localize]: [constants.serviceName] or a value. *)
Inductive MessageArg :=
  | ServiceName
  | Arg (value : Any).

(** A text written out: a localized template with its arguments, a value
    as it is, or ['.'.repeat(count)]. *)
Inductive Message :=
  | Localized (key : string) (template : string) (args : list MessageArg)
  | Plain (value : Any)
  | Dots (count : Z).

(** What the handler does to the output channel and to the status view. *)
Inductive UICall :=
  | ChannelShow (preserveFocus : bool)
  | ChannelAppendLine (msg : Message)
  | ChannelAppend (msg : Message)
  | StatusShow
  | StatusText (msg : Message).

Definition arg (args : list Any) (i : nat) : Any := default undefined (args !! i).

(** The listener [generateHandleServerProviderEvent] returns, with the
    [dots] of its closure as state: the new [dots] and the calls made. *)
Definition handleServerProviderEvent (e : Events) (args : list Any) (dots : Z)
  : Z * list UICall :=
  match e with
  | INSTALL_START =>
      (dots,
       [ChannelShow true; StatusShow;
        ChannelAppendLine
          (Localized "installingServiceDetailed" "Installing {0} to {1}"
             [ServiceName; Arg (arg args 0)]);
        StatusText
          (Localized "installingService" "Installing {0} Service" [ServiceName])])
  | INSTALL_END =>
      (dots,
       [ChannelAppendLine (Localized "serviceInstalled" "Installed {0}" [ServiceName])])
  | DOWNLOAD_START =>
      (dots,
       [ChannelAppendLine
          (Localized "downloadingService" "Downloading {0}" [Arg (arg args 0)]);
        ChannelAppend
          (Localized "downloadingServiceSize" "({0} KB)" [Arg (sizeInKB (arg args 1))]);
        StatusText
          (Localized "downloadingServiceStatus" "Downloading {0}" [ServiceName])])
  | DOWNLOAD_PROGRESS =>
      let newDots := ceilFifth (arg args 0) in
      if (dots <? newDots)%Z
      then (newDots, [ChannelAppend (Dots (newDots - dots))])
      else (dots, [])
  | DOWNLOAD_END =>
      (dots,
       [ChannelAppendLine
          (Localized "downloadingServiceComplete" "Done downloading {0}"
             [ServiceName])])
  | ENTRY_EXTRACTED =>
      (dots,
       [ChannelAppendLine
          (Localized "entryExtractedChannelMsg" "Extracted {0} ({1}/{2})"
             [Arg (arg args 0); Arg (arg args 1); Arg (arg args 2)])])
  | LOG_EMITTED =>
      if atLeastWarning (arg args 0)
      then (dots, [ChannelAppendLine (Plain (arg args 1))])
      else (dots, [])
  | OtherEvent => (dots, [])
  end.

(** The listener over a sequence of events, and a fresh listener, whose
    [dots] start at 0. *)
Fixpoint handleAll (events : list (Events * list Any)) (dots : Z)
  : Z * list UICall :=
  match events with
  | [] => (dots, [])
  | (e, args) :: rest =>
      let '(dots', calls) := handleServerProviderEvent e args dots in
      let '(dots'', calls') := handleAll rest dots' in
      (dots'', calls ++ calls')
  end.

Definition freshListener (events : list (Events * list Any)) : Z * list UICall :=
  handleAll events 0%Z.

(** The dots written to the channel, and the progress levels reported. *)
Fixpoint dotsWritten (calls : list UICall) : Z :=
  match calls with
  | [] => 0%Z
  | ChannelAppend (Dots n) :: rest => (n + dotsWritten rest)%Z
  | _ :: rest => dotsWritten rest
  end.

Definition progressLevels (events : list (Events * list Any)) : list Z :=
  omap (λ ev : Events * list Any,
          match ev.1 with
          | DOWNLOAD_PROGRESS => Some (ceilFifth (arg ev.2 0))
          | _ => None
          end) events.

End ServerProviderEvents.
End ServiceClient.

(** ** The webview editor overlay
    (vs/workbench/contrib/webview/browser/webviewService) *)

Module WebviewOverlay.

Record WebviewOptions := mkWebviewOptions {
  retainContextWhenHidden : bool;
  tryRestoreScrollPosition : bool
}.

(** [container.style.visibility]. *)
Inductive Visibility := VisibilityUnset | VisibilityHidden | VisibilityVisible.

(** The listeners [show] registers on a webview. *)
Inductive Listener :=
  | OnDidFocus | OnDidClickLink | OnDidScroll | OnDidUpdateState | OnMessage.

#[global] Instance Listener_eq_dec : EqDecision Listener.
Proof. solve_decision. Defined.

Section Overlay.
(** Messages and owners are [any]: the overlay compares them ([Set]
    membership, [!==]) and never looks inside. Scroll progress is a number,
    content options and link targets are passed through. *)
Context {Msg Owner Num ContentOptions URI : Type}.
Context `{!EqDecision Msg, !EqDecision Owner}.
Variable zero : Num.

(** What the overlay does to a webview element it holds, in order. *)
Inductive WebviewCall :=
  | Created (contentOptions : ContentOptions)
  | SetState (state : option string)
  | SetHtml (html : string)
  | SetInitialScrollProgress (value : Num)
  | SetContentOptions (value : ContentOptions)
  | MountTo
  | SendMessage (data : Msg)
  | Update (value : string) (options : ContentOptions) (retain : bool)
  | Layout | Focus | Reload | ShowFind | HideFind
  | Dispose.

(** What a webview element tells its listeners, and what the overlay fires
    on its own emitters. *)
Inductive WebviewEvent :=
  | DidFocus
  | DidClickLink (uri : URI)
  | DidScroll (scrollYPercentage : Num)
  | DidUpdateState (state : option string)
  | Message (data : Msg).

Definition listenerOf (e : WebviewEvent) : Listener :=
  match e with
  | DidFocus => OnDidFocus
  | DidClickLink _ => OnDidClickLink
  | DidScroll _ => OnDidScroll
  | DidUpdateState _ => OnDidUpdateState
  | Message _ => OnMessage
  end.

(** A [DynamicWebviewEditorOverlay]: its fields, the container of its
    memoized getter ([None] until the getter first runs), and, to observe
    it, the webviews it has disposed of and the events it has fired.
    [_webview] holds the calls the current webview element has received;
    [_owner] is [None] for [undefined]. *)
Record Overlay := mkOverlay {
  options : WebviewOptions;
  _pendingMessages : list Msg;
  _webview : option (list WebviewCall);
  _webviewEvents : list Listener;
  _html : string;
  _initialScrollProgress : Num;
  _state : option string;
  _owner : option Owner;
  _contentOptions : ContentOptions;
  container : option Visibility;
  disposedWebviews : list (list WebviewCall);
  fired : list WebviewEvent
}.

Definition new (options : WebviewOptions) (contentOptions : ContentOptions)
  : Overlay :=
  {| options := options;
     _pendingMessages := [];
     _webview := None;
     _webviewEvents := [];
     _html := "";
     _initialScrollProgress := zero;
     _state := None;
     _owner := None;
     _contentOptions := contentOptions;
     container := None;
     disposedWebviews := [];
     fired := [] |}.

(** The overlay with one field assigned. *)
Definition with_pendingMessages (v : list Msg) (o : Overlay) : Overlay :=
  let 'mkOverlay o_options o_pending o_webview o_listeners o_html o_scroll
      o_state o_owner o_contentOptions o_container o_disposed o_fired := o in
  mkOverlay o_options v o_webview o_listeners o_html o_scroll o_state o_owner
      o_contentOptions o_container o_disposed o_fired.

Definition with_webview (v : option (list WebviewCall)) (o : Overlay) :
    Overlay :=
  let 'mkOverlay o_options o_pending o_webview o_listeners o_html o_scroll
      o_state o_owner o_contentOptions o_container o_disposed o_fired := o in
  mkOverlay o_options o_pending v o_listeners o_html o_scroll o_state o_owner
      o_contentOptions o_container o_disposed o_fired.

Definition with_webviewEvents (v : list Listener) (o : Overlay) : Overlay :=
  let 'mkOverlay o_options o_pending o_webview o_listeners o_html o_scroll
      o_state o_owner o_contentOptions o_container o_disposed o_fired := o in
  mkOverlay o_options o_pending o_webview v o_html o_scroll o_state o_owner
      o_contentOptions o_container o_disposed o_fired.

Definition with_html (v : string) (o : Overlay) : Overlay :=
  let 'mkOverlay o_options o_pending o_webview o_listeners o_html o_scroll
      o_state o_owner o_contentOptions o_container o_disposed o_fired := o in
  mkOverlay o_options o_pending o_webview o_listeners v o_scroll o_state
      o_owner o_contentOptions o_container o_disposed o_fired.

Definition with_initialScrollProgress (v : Num) (o : Overlay) : Overlay :=
  let 'mkOverlay o_options o_pending o_webview o_listeners o_html o_scroll
      o_state o_owner o_contentOptions o_container o_disposed o_fired := o in
  mkOverlay o_options o_pending o_webview o_listeners o_html v o_state
      o_owner o_contentOptions o_container o_disposed o_fired.

Definition with_state (v : option string) (o : Overlay) : Overlay :=
  let 'mkOverlay o_options o_pending o_webview o_listeners o_html o_scroll
      o_state o_owner o_contentOptions o_container o_disposed o_fired := o in
  mkOverlay o_options o_pending o_webview o_listeners o_html o_scroll v
      o_owner o_contentOptions o_container o_disposed o_fired.

Definition with_owner (v : option Owner) (o : Overlay) : Overlay :=
  let 'mkOverlay o_options o_pending o_webview o_listeners o_html o_scroll
      o_state o_owner o_contentOptions o_container o_disposed o_fired := o in
  mkOverlay o_options o_pending o_webview o_listeners o_html o_scroll o_state
      v o_contentOptions o_container o_disposed o_fired.

Definition with_contentOptions (v : ContentOptions) (o : Overlay) : Overlay :=
  let 'mkOverlay o_options o_pending o_webview o_listeners o_html o_scroll
      o_state o_owner o_contentOptions o_container o_disposed o_fired := o in
  mkOverlay o_options o_pending o_webview o_listeners o_html o_scroll o_state
      o_owner v o_container o_disposed o_fired.

Definition with_container (v : option Visibility) (o : Overlay) : Overlay :=
  let 'mkOverlay o_options o_pending o_webview o_listeners o_html o_scroll
      o_state o_owner o_contentOptions o_container o_disposed o_fired := o in
  mkOverlay o_options o_pending o_webview o_listeners o_html o_scroll o_state
      o_owner o_contentOptions v o_disposed o_fired.

Definition with_disposedWebviews (v : list (list WebviewCall)) (o : Overlay)
    : Overlay :=
  let 'mkOverlay o_options o_pending o_webview o_listeners o_html o_scroll
      o_state o_owner o_contentOptions o_container o_disposed o_fired := o in
  mkOverlay o_options o_pending o_webview o_listeners o_html o_scroll o_state
      o_owner o_contentOptions o_container v o_fired.

Definition with_fired (v : list WebviewEvent) (o : Overlay) : Overlay :=
  let 'mkOverlay o_options o_pending o_webview o_listeners o_html o_scroll
      o_state o_owner o_contentOptions o_container o_disposed o_fired := o in
  mkOverlay o_options o_pending o_webview o_listeners o_html o_scroll o_state
      o_owner o_contentOptions o_container o_disposed v.

(** [this.container.style.visibility = v]; the getter creates the container
    on its first use. *)
Definition setVisibility (v : Visibility) (o : Overlay) : Overlay :=
  with_container (Some v) o.

(** [this.container] read for its own sake, as [mountTo] does. *)
Definition touchContainer (o : Overlay) : Overlay :=
  match container o with
  | Some _ => o
  | None => with_container (Some VisibilityUnset) o
  end.

(** [withWebview(f)]: [f] is a call on the webview, made if there is one. *)
Definition withWebview (call : WebviewCall) (o : Overlay) : Overlay :=
  match _webview o with
  | Some calls => with_webview (Some (calls ++ [call])) o
  | None => o
  end.

(** [Set.add]: a value already in the set is not added again, and the set
    keeps the order of insertion. *)
Definition setAdd (data : Msg) (s : list Msg) : list Msg :=
  if decide (data ∈ s) then s else s ++ [data].

Definition allListeners : list Listener :=
  [OnDidFocus; OnDidClickLink; OnDidScroll; OnDidUpdateState; OnMessage].

Definition show (o : Overlay) : Overlay :=
  let o :=
    match _webview o with
    | Some _ => o
    | None =>
        let calls :=
          [Created (_contentOptions o); SetState (_state o); SetHtml (_html o)]
          ++ (if tryRestoreScrollPosition (options o)
              then [SetInitialScrollProgress (_initialScrollProgress o)] else [])
          ++ [MountTo]
          ++ (SendMessage <$> _pendingMessages o) in
        with_pendingMessages []
          (with_webviewEvents allListeners
             (with_webview (Some calls) (touchContainer o)))
    end in
  setVisibility VisibilityVisible o.

Definition claim (owner : option Owner) (o : Overlay) : Overlay :=
  show (with_owner owner o).

Definition release (owner : option Owner) (o : Overlay) : Overlay :=
  if decide (_owner o = owner) then
    let o := with_owner None o in
    if retainContextWhenHidden (options o) then
      setVisibility VisibilityHidden o
    else
      (* this._webview.clear(); this._webviewEvents.clear(); *)
      with_webviewEvents []
        (match _webview o with
         | Some calls =>
             with_disposedWebviews (disposedWebviews o ++ [calls ++ [Dispose]])
               (with_webview None o)
         | None => o
         end)
  else o.

Definition set_html (value : string) (o : Overlay) : Overlay :=
  withWebview (SetHtml value) (with_html value o).

Definition set_initialScrollProgress (value : Num) (o : Overlay) : Overlay :=
  withWebview (SetInitialScrollProgress value) (with_initialScrollProgress value o).

Definition set_state (value : option string) (o : Overlay) : Overlay :=
  withWebview (SetState value) (with_state value o).

Definition set_contentOptions (value : ContentOptions) (o : Overlay) : Overlay :=
  withWebview (SetContentOptions value) (with_contentOptions value o).

Definition sendMessage (data : Msg) (o : Overlay) : Overlay :=
  match _webview o with
  | Some calls => with_webview (Some (calls ++ [SendMessage data])) o
  | None => with_pendingMessages (setAdd data (_pendingMessages o)) o
  end.

Definition update (value : string) (options : ContentOptions) (retain : bool)
    (o : Overlay) : Overlay :=
  withWebview (Update value options retain) (with_contentOptions options o).

(** The current webview element raises an event: the listener [show]
    registered for it, if it is still registered, runs. *)
Definition webviewRaises (e : WebviewEvent) (o : Overlay) : Overlay :=
  if decide (listenerOf e ∈ _webviewEvents o) then
    let o :=
      match e with
      | DidScroll x => with_initialScrollProgress x o
      | DidUpdateState state => with_state state o
      | _ => o
      end in
    with_fired (fired o ++ [e]) o
  else o.

(** The operations of the overlay, to run sequences of them. *)
Inductive Operation :=
  | OpClaim (owner : option Owner)
  | OpRelease (owner : option Owner)
  | OpSetHtml (value : string)
  | OpSetInitialScrollProgress (value : Num)
  | OpSetState (value : option string)
  | OpSetContentOptions (value : ContentOptions)
  | OpSendMessage (data : Msg)
  | OpUpdate (value : string) (options : ContentOptions) (retain : bool)
  | OpLayout | OpFocus | OpReload | OpShowFind | OpHideFind
  | OpWebviewRaises (e : WebviewEvent).

Definition step (op : Operation) (o : Overlay) : Overlay :=
  match op with
  | OpClaim owner => claim owner o
  | OpRelease owner => release owner o
  | OpSetHtml value => set_html value o
  | OpSetInitialScrollProgress value => set_initialScrollProgress value o
  | OpSetState value => set_state value o
  | OpSetContentOptions value => set_contentOptions value o
  | OpSendMessage data => sendMessage data o
  | OpUpdate value options retain => update value options retain o
  | OpLayout => withWebview Layout o
  | OpFocus => withWebview Focus o
  | OpReload => withWebview Reload o
  | OpShowFind => withWebview ShowFind o
  | OpHideFind => withWebview HideFind o
  | OpWebviewRaises e => webviewRaises e o
  end.

Definition run (ops : list Operation) (o : Overlay) : Overlay :=
  foldl (λ o op, step op o) o ops.

(** The calls a newly created webview receives in [show] before any
    pending message. *)
Definition initialCalls (o : Overlay) : list WebviewCall :=
  [Created (_contentOptions o); SetState (_state o); SetHtml (_html o)]
  ++ (if tryRestoreScrollPosition (options o)
      then [SetInitialScrollProgress (_initialScrollProgress o)] else [])
  ++ [MountTo].

(** What holds of an overlay however it is used. *)
Definition invariant (o : Overlay) : Prop :=
  _webviewEvents o = match _webview o with Some _ => allListeners | None => [] end
  ∧ (is_Some (_webview o) → _pendingMessages o = [])
  ∧ NoDup (_pendingMessages o)
  ∧ (is_Some (_owner o) →
     is_Some (_webview o) ∧ container o = Some VisibilityVisible)
  ∧ (container o = Some VisibilityHidden →
     retainContextWhenHidden (options o) = true ∧ _owner o = None)
  ∧ (is_Some (_webview o) → is_Some (container o)).

End Overlay.
End WebviewOverlay.

(** Overlays to try the operations on: messages and owners are numbers,
    content options and link targets strings. The first does not retain its
    context when hidden and restores the scroll position, the second retains
    it; both have been claimed by owner 1. *)
Definition freshOverlay (retain restore : bool)
  : @WebviewOverlay.Overlay nat nat Z string string :=
  WebviewOverlay.new 0%Z (WebviewOverlay.mkWebviewOptions retain restore) "options".

Definition shownOverlay : @WebviewOverlay.Overlay nat nat Z string string :=
  WebviewOverlay.claim (Some 1) (freshOverlay false true).

Definition retainingOverlay : @WebviewOverlay.Overlay nat nat Z string string :=
  WebviewOverlay.claim (Some 1) (freshOverlay true false).

(** * Properties *)

(** ** Helper lemmas *)

Lemma Range_new_collapsed (l c : nat) : Range_new l c l c = mkRange l c l c.
Proof.
  unfold Range_new.
  rewrite !Nat.ltb_irrefl, Nat.eqb_refl. reflexivity.
Qed.

(** Every cached classifier is the one constructed from its key. *)
Lemma reachableCache_lookup cache :
  reachableCache cache →
  ∀ s k, cache !! s = Some k → k = WordCharacterClassifier_new s.
Proof.
  induction 1 as [|s0 c Hc IH]; intros s k Hk.
  - rewrite lookup_empty in Hk. discriminate.
  - unfold getMapForWordSeparators in Hk.
    destruct (c !! s0) as [k0|] eqn:E; simpl in Hk.
    + eauto.
    + destruct (decide (s0 = s)) as [->|Hne].
      * rewrite lookup_insert_eq in Hk. congruence.
      * rewrite lookup_insert_ne in Hk by done. eauto.
Qed.

Lemma getMapForWordSeparators_reachable s cache :
  reachableCache cache →
  (getMapForWordSeparators s cache).1 = WordCharacterClassifier_new s.
Proof.
  intros Hc. unfold getMapForWordSeparators.
  destruct (cache !! s) as [k|] eqn:E; simpl.
  - eapply reachableCache_lookup; eauto.
  - reflexivity.
Qed.

(** The lookup table agrees with the direct computation. *)
Lemma WordCharacterClassifier_get_new (s : JSString) (c : Z) :
  WordCharacterClassifier_get (WordCharacterClassifier_new s) c
  = computeClass (codePoints s) c.
Proof.
  unfold WordCharacterClassifier_get, WordCharacterClassifier_new.
  cbn [_asciiMap _separators].
  destruct ((0 <=? c)%Z && (c <? 256)%Z) eqn:E; [|reflexivity].
  apply andb_true_iff in E as [H0 H1].
  apply Z.leb_le in H0. apply Z.ltb_lt in H1.
  rewrite list_lookup_fmap.
  rewrite (lookup_seq_lt 0 256 (Z.to_nat c)) by lia.
  cbn [fmap option_fmap option_map default]. unfold Datatypes.id. f_equal. lia.
Qed.

(** Duplicates in the separator set do not change a class: only membership
    is read. *)
Lemma computeClass_same_members (s1 s2 : list Z) (c : Z) :
  (∀ x, x ∈ s1 ↔ x ∈ s2) → computeClass s1 c = computeClass s2 c.
Proof.
  intros H. unfold computeClass.
  destruct (isUnicodeWhitespace c); [reflexivity|].
  destruct (decide (c ∈ s1)) as [Hin|Hnin].
  - rewrite !bool_decide_eq_true_2; [reflexivity| by apply H | done].
  - rewrite !bool_decide_eq_false_2; [reflexivity| by rewrite <- H | done].
Qed.

(** ** The commands of wordOperations.ts *)

Section CommandProperties.
Context `{ops : WordOperations}.
Variable defaultValue : JSString.

(** C1 (amended): the one command bound to Ctrl+Left is CursorWordLeft and
    it moves with [moveWordLeft] at WordStartFast; the one command bound to
    Ctrl+Right is CursorWordEndRight and it moves with [moveWordRight] at
    WordEnd. *)
Theorem default_word_navigation_types
    (k : WordCharacterClassifier) (m : ITextModel) (p : Position) cache :
  moveCommandsBoundTo defaultValue ctrlLeft = [CursorWordLeft]
  ∧ _move CursorWordLeft k m p (wordNavigationType (move_opts CursorWordLeft)) cache
    = (moveWordLeft k m p WordStartFast, cache)
  ∧ moveCommandsBoundTo defaultValue ctrlRight = [CursorWordEndRight]
  ∧ _move CursorWordEndRight k m p
      (wordNavigationType (move_opts CursorWordEndRight)) cache
    = (moveWordRight k m p WordEnd, cache).
Proof. repeat split. Qed.

(** C2: the accessibility commands (left, right and their Select variants)
    drop the classifier they are handed: whatever it is, the result is the
    position reached with the classifier that [getMapForWordSeparators]
    yields for the default wordSeparators value. *)
Theorem accessibility_commands_use_default_separators
    (k k' : WordCharacterClassifier) (m : ITextModel) (p : Position)
    (nt : WordNavigationType) cache :
  let kd := (getMapForWordSeparators defaultValue cache).1 in
  let left := CursorWordAccessibilityLeft defaultValue in
  let leftSelect := CursorWordAccessibilityLeftSelect defaultValue in
  let right := CursorWordAccessibilityRight defaultValue in
  let rightSelect := CursorWordAccessibilityRightSelect defaultValue in
  (_move left k m p nt cache = _move left k' m p nt cache
   ∧ (_move left k m p nt cache).1 = moveWordLeft kd m p nt)
  ∧ (_move leftSelect k m p nt cache = _move leftSelect k' m p nt cache
     ∧ (_move leftSelect k m p nt cache).1 = moveWordLeft kd m p nt)
  ∧ (_move right k m p nt cache = _move right k' m p nt cache
     ∧ (_move right k m p nt cache).1 = moveWordRight kd m p nt)
  ∧ (_move rightSelect k m p nt cache = _move rightSelect k' m p nt cache
     ∧ (_move rightSelect k m p nt cache).1 = moveWordRight kd m p nt).
Proof.
  intros kd left leftSelect right rightSelect.
  repeat split; subst left leftSelect right rightSelect;
    cbn [_move CursorWordAccessibilityLeft CursorWordAccessibilityLeftSelect
         CursorWordAccessibilityRight CursorWordAccessibilityRightSelect];
    unfold CursorWordAccessibilityLeft_move, CursorWordAccessibilityRight_move,
      cbind, kd;
    destruct (getMapForWordSeparators defaultValue cache); reflexivity.
Qed.

(** C3: [_delete] of the left-deletion command is the core's range, and
    the zero-width range (1,1)-(1,1) when the core answers null; [_delete]
    of the right-deletion command is the core's range, and the zero-width
    range at the max column of the last line when the core answers null. *)
Theorem delete_commands_substitute_document_boundary
    (ctx : DeleteWordContext) (nt : WordNavigationType) :
  DeleteWordLeftCommand_delete ctx nt
    = match deleteWordLeft ctx nt with
      | Some r => r
      | None => mkRange 1 1 1 1
      end
  ∧ DeleteWordRightCommand_delete ctx nt
    = match deleteWordRight ctx nt with
      | Some r => r
      | None =>
          let n := getLineCount (model ctx) in
          mkRange n (getLineMaxColumn (model ctx) n) n (getLineMaxColumn (model ctx) n)
      end.
Proof.
  unfold DeleteWordLeftCommand_delete, DeleteWordRightCommand_delete.
  split.
  - destruct (deleteWordLeft ctx nt); reflexivity.
  - destruct (deleteWordRight ctx nt); [reflexivity|].
    apply Range_new_collapsed.
Qed.

(** C9: CursorWordRight and CursorWordEndRight carry the same selection
    mode (off) and navigation type (WordEnd) and the same [_move], and
    running them on any editor in any cache state has the same effects. *)
Theorem CursorWordRight_equiv_CursorWordEndRight
    (k : WordCharacterClassifier) (m : ITextModel) (p : Position)
    (editor : ICodeEditor) cache :
  inSelectionMode (move_opts CursorWordRight) = false
  ∧ inSelectionMode (move_opts CursorWordEndRight) = false
  ∧ wordNavigationType (move_opts CursorWordRight) = WordEnd
  ∧ wordNavigationType (move_opts CursorWordEndRight) = WordEnd
  ∧ _move CursorWordRight k m p WordEnd cache
    = _move CursorWordEndRight k m p WordEnd cache
  ∧ MoveWordCommand_runEditorCommand CursorWordRight editor cache
    = MoveWordCommand_runEditorCommand CursorWordEndRight editor cache.
Proof. repeat split. Qed.

End CommandProperties.

(** C10: in selection mode [_moveTo] keeps the anchor of the selection it
    starts from and puts the active end on the target; out of selection mode
    it answers the selection collapsed on the target. *)
Theorem moveTo_keeps_anchor (from : Selection) (to : Position) :
  (selectionStartLineNumber (_moveTo from to true) = selectionStartLineNumber from
   ∧ selectionStartColumn (_moveTo from to true) = selectionStartColumn from
   ∧ Selection_getPosition (_moveTo from to true) = to)
  ∧ _moveTo from to false
    = mkSelection (lineNumber to) (column to) (lineNumber to) (column to).
Proof. destruct to. repeat split. Qed.

(** ** The classifier *)

(** C8: classifiers obtained for equal separator strings, in whatever states
    the cache is, give every code point the same class; so do two freshly
    constructed classifiers. The separator string is arbitrary, duplicates
    included. *)
Theorem classifier_deterministic
    (s1 s2 : JSString) (cache1 cache2 : gmap (list Z) WordCharacterClassifier)
    (c : Z) :
  reachableCache cache1 → reachableCache cache2 → s1 = s2 →
  WordCharacterClassifier_get (getMapForWordSeparators s1 cache1).1 c
  = WordCharacterClassifier_get (getMapForWordSeparators s2 cache2).1 c
  ∧ WordCharacterClassifier_get (WordCharacterClassifier_new s1) c
    = WordCharacterClassifier_get (WordCharacterClassifier_new s2) c.
Proof.
  intros H1 H2 ->.
  rewrite !getMapForWordSeparators_reachable by assumption.
  split; reflexivity.
Qed.

Lemma classifier_deterministic_witness :
  reachableCache ∅
  ∧ reachableCache (getMapForWordSeparators (units "..") ∅).2
  ∧ units ".." = units ".."
  ∧ (WordCharacterClassifier_get
       (getMapForWordSeparators (units "..") ∅).1 46
     = WordCharacterClassifier_get
         (getMapForWordSeparators (units "..")
            (getMapForWordSeparators (units "..") ∅).2).1 46
     ∧ WordCharacterClassifier_get (WordCharacterClassifier_new (units "..")) 46
       = WordCharacterClassifier_get (WordCharacterClassifier_new (units "..")) 46).
Proof.
  split; [constructor|].
  split; [constructor; constructor|].
  split; [reflexivity|].
  apply (classifier_deterministic (units "..") (units "..") ∅
           (getMapForWordSeparators (units "..") ∅).2 46).
  - constructor.
  - constructor; constructor.
  - reflexivity.
Defined.

(** C1 (counterexample): the one command bound to Ctrl+Right is
    CursorWordEndRight, whose navigation type is WordEnd; on the line
    [foo bar] it moves from column 1 to column 4, where WordStartFast
    reaches column 5. *)
Lemma ctrl_right_moves_by_WordEnd :
  @moveCommandsBoundTo (coreWordOperations exampleSeparators) exampleSeparators
     ctrlRight
  = [@CursorWordEndRight (coreWordOperations exampleSeparators)]
  ∧ wordNavigationType (move_opts (@CursorWordEndRight
                                     (coreWordOperations exampleSeparators)))
    ≠ WordStartFast
  ∧ (_move (@CursorWordEndRight (coreWordOperations exampleSeparators))
       exampleClassifier (mkModel [units "foo bar"]) (Pos 1 1)
       (wordNavigationType (move_opts (@CursorWordEndRight
                                         (coreWordOperations exampleSeparators))))
       ∅).1
    ≠ @moveWordRight (coreWordOperations exampleSeparators)
        exampleClassifier (mkModel [units "foo bar"]) (Pos 1 1) WordStartFast.
Proof.
  split; [reflexivity|].
  split; [discriminate|].
  vm_compute. discriminate.
Qed.

(** ** The word-boundary core *)

Section CoreProperties.
Variable defaultValue : JSString.

Abbreviation moveWordLeft := (Core.moveWordLeft defaultValue).
Abbreviation moveWordRight := (Core.moveWordRight defaultValue).
Abbreviation deleteWordLeft := (Core.deleteWordLeft defaultValue).
Abbreviation deleteWordRight := (Core.deleteWordRight defaultValue).
Abbreviation classesOfLine := (Core.classesOfLine defaultValue).

Lemma lineClasses_pair k (hi lo : Z) (rest : JSString) :
  Core.lineClasses k (hi :: lo :: rest)
  = if isHighSurrogate hi && isLowSurrogate lo
    then WordCharacterClassifier_get k (computeCodePoint hi lo)
         :: WordCharacterClassifier_get k (computeCodePoint hi lo)
         :: Core.lineClasses k rest
    else WordCharacterClassifier_get k hi :: Core.lineClasses k (lo :: rest).
Proof. reflexivity. Qed.

Lemma lineClasses_length k (l : JSString) :
  length (Core.lineClasses k l) = length l.
Proof.
  enough (H : ∀ n (l : JSString), length l ≤ n →
              length (Core.lineClasses k l) = length l) by eauto.
  induction n as [|n IH]; intros [|hi [|lo rest]] Hl;
    cbn [length] in Hl; try lia; try reflexivity.
  rewrite lineClasses_pair.
  destruct (isHighSurrogate hi && isLowSurrogate lo); cbn [length].
  - rewrite IH by lia. reflexivity.
  - rewrite IH by (cbn [length]; lia). reflexivity.
Qed.

Lemma classesOfLine_length nt k m n :
  length (classesOfLine nt k m n) = length (getLineContent m n).
Proof. apply lineClasses_length. Qed.

(** C5: for a non-empty selection both deletions answer the selection
    itself, whatever the navigation type, the whitespace heuristic and the
    auto-closing configuration. *)
Theorem deleteWord_nonempty_selection (ctx : DeleteWordContext)
    (nt : WordNavigationType) :
  Selection_isEmpty (selection ctx) = false →
  deleteWordLeft ctx nt = Some (Selection_asRange (selection ctx))
  ∧ deleteWordRight ctx nt = Some (Selection_asRange (selection ctx)).
Proof.
  intros H. unfold Core.deleteWordLeft, Core.deleteWordRight.
  rewrite H. split; reflexivity.
Qed.

(** C6: at (1,1) [moveWordLeft] answers (1,1), and at the max column of
    the last line [moveWordRight] answers that position, for every
    navigation type, classifier and buffer. *)
Theorem moveWord_identity_at_document_ends
    (k : WordCharacterClassifier) (m : ITextModel) (nt : WordNavigationType) :
  moveWordLeft k m (Pos 1 1) nt = Pos 1 1
  ∧ moveWordRight k m (Pos (getLineCount m) (getLineMaxColumn m (getLineCount m))) nt
    = Pos (getLineCount m) (getLineMaxColumn m (getLineCount m)).
Proof.
  split.
  - reflexivity.
  - unfold Core.moveWordRight, Core.boundaryRight, Pos.
    cbn [lineNumber column].
    rewrite classesOfLine_length. unfold getLineMaxColumn.
    rewrite !Nat.sub_diag. reflexivity.
Qed.

End CoreProperties.

Lemma deleteWord_nonempty_selection_witness :
  Selection_isEmpty (selection ctxRanged) = false
  ∧ Core.deleteWordLeft exampleSeparators ctxRanged WordStart
    = Some (Selection_asRange (selection ctxRanged))
  ∧ Core.deleteWordRight exampleSeparators ctxRanged WordStart
    = Some (Selection_asRange (selection ctxRanged)).
Proof.
  split; [reflexivity|].
  apply (deleteWord_nonempty_selection exampleSeparators ctxRanged WordStart).
  reflexivity.
Defined.

(** ** Moving right, then left, inside a word *)

Section ScanLemmas.

Lemma findBoundaryLeft_Some (P : nat → bool) (c b : nat) :
  Core.findBoundaryLeft P c = Some b
  ↔ 1 ≤ b < c ∧ P b = true ∧ ∀ b', b < b' < c → P b' = false.
Proof.
  induction c as [|c IH]; cbn [Core.findBoundaryLeft].
  - split; [discriminate | lia].
  - destruct ((0 <? c) && P c) eqn:E.
    + apply andb_true_iff in E as [Hc HP]. apply Nat.ltb_lt in Hc.
      split.
      * intros [= <-]. repeat split; [lia | lia | done | lia].
      * intros (Hb & HPb & Hno).
        destruct (decide (b = c)) as [->|Hne]; [reflexivity|].
        rewrite Hno in HP by lia. discriminate.
    + rewrite IH. split.
      * intros (Hb & HPb & Hno). repeat split; [lia | lia | done |].
        intros b' Hb'. destruct (decide (b' = c)) as [->|Hne].
        -- apply andb_false_iff in E as [E|E]; [|done].
           apply Nat.ltb_ge in E. lia.
        -- apply Hno. lia.
      * intros (Hb & HPb & Hno).
        destruct (decide (b = c)) as [->|Hne].
        -- apply andb_false_iff in E as [E|E]; [|congruence].
           apply Nat.ltb_ge in E. lia.
        -- repeat split; [lia | lia | done |]. intros b' Hb'. apply Hno. lia.
Qed.

Lemma findBoundaryLeft_None (P : nat → bool) (c : nat) :
  Core.findBoundaryLeft P c = None ↔ ∀ b, 1 ≤ b < c → P b = false.
Proof.
  induction c as [|c IH]; cbn [Core.findBoundaryLeft].
  - split; [lia | reflexivity].
  - destruct ((0 <? c) && P c) eqn:E.
    + apply andb_true_iff in E as [Hc HP]. apply Nat.ltb_lt in Hc.
      split; [discriminate|]. intros H. rewrite H in HP by lia. discriminate.
    + rewrite IH. split.
      * intros H b Hb. destruct (decide (b = c)) as [->|Hne].
        -- apply andb_false_iff in E as [E|E]; [|done].
           apply Nat.ltb_ge in E. lia.
        -- apply H. lia.
      * intros H b Hb. apply H. lia.
Qed.

Lemma findBoundaryRight_Some (P : nat → bool) (fuel b0 b : nat) :
  Core.findBoundaryRight P fuel b0 = Some b
  ↔ b0 ≤ b < b0 + fuel ∧ P b = true ∧ ∀ b', b0 ≤ b' < b → P b' = false.
Proof.
  revert b0. induction fuel as [|fuel IH]; intros b0;
    cbn [Core.findBoundaryRight].
  - split; [discriminate | lia].
  - destruct (P b0) eqn:E.
    + split.
      * intros [= <-]. repeat split; [lia | lia | done | lia].
      * intros (Hb & HPb & Hno).
        destruct (decide (b = b0)) as [->|Hne]; [reflexivity|].
        rewrite Hno in E by lia. discriminate.
    + rewrite IH. split.
      * intros (Hb & HPb & Hno). repeat split; [lia | lia | done |].
        intros b' Hb'. destruct (decide (b' = b0)) as [->|Hne]; [done|].
        apply Hno. lia.
      * intros (Hb & HPb & Hno).
        destruct (decide (b = b0)) as [->|Hne]; [congruence|].
        repeat split; [lia | lia | done |]. intros b' Hb'. apply Hno. lia.
Qed.

Lemma findBoundaryRight_None (P : nat → bool) (fuel b0 : nat) :
  Core.findBoundaryRight P fuel b0 = None
  ↔ ∀ b, b0 ≤ b < b0 + fuel → P b = false.
Proof.
  revert b0. induction fuel as [|fuel IH]; intros b0;
    cbn [Core.findBoundaryRight].
  - split; [lia | reflexivity].
  - destruct (P b0) eqn:E.
    + split; [discriminate|]. intros H. rewrite H in E by lia. discriminate.
    + rewrite IH. split.
      * intros H b Hb. destruct (decide (b = b0)) as [->|Hne]; [done|].
        apply H. lia.
      * intros H b Hb. apply H. lia.
Qed.

End ScanLemmas.

Section RoundTrip.
Variable defaultValue : JSString.

Abbreviation firstBoundaryOnLine := (Core.firstBoundaryOnLine defaultValue).
Abbreviation lastBoundaryOnLine := (Core.lastBoundaryOnLine defaultValue).
Abbreviation scanLinesLeft := (Core.scanLinesLeft defaultValue).
Abbreviation scanLinesRight := (Core.scanLinesRight defaultValue).

Lemma firstBoundaryOnLine_None_last nt k m n :
  firstBoundaryOnLine nt k m n = None → lastBoundaryOnLine nt k m n = None.
Proof.
  unfold Core.firstBoundaryOnLine, Core.lastBoundaryOnLine.
  rewrite findBoundaryRight_None, findBoundaryLeft_None.
  intros H b Hb. apply H. lia.
Qed.

Lemma firstBoundaryOnLine_Some_none_below nt k m n b :
  firstBoundaryOnLine nt k m n = Some b →
  Core.findBoundaryLeft
    (Core.isBoundary nt (Core.classesOfLine defaultValue nt k m n)) b = None.
Proof.
  unfold Core.firstBoundaryOnLine.
  rewrite findBoundaryRight_Some, findBoundaryLeft_None.
  intros (_ & _ & H) b' Hb'. apply H. lia.
Qed.

Lemma scanLinesRight_Some nt k m fuel n q :
  scanLinesRight nt k m fuel n = Some q →
  n ≤ lineNumber q < n + fuel
  ∧ firstBoundaryOnLine nt k m (lineNumber q) = Some (column q)
  ∧ ∀ j, n ≤ j < lineNumber q → firstBoundaryOnLine nt k m j = None.
Proof.
  revert n. induction fuel as [|fuel IH]; intros n;
    cbn [Core.scanLinesRight]; [discriminate|].
  destruct (firstBoundaryOnLine nt k m n) as [b|] eqn:E.
  - intros [= <-]. cbn [lineNumber column].
    repeat split; [lia | lia | done | lia].
  - intros H. apply IH in H as (Hq & Hfirst & Hnone).
    repeat split; [lia | lia | done |].
    intros j Hj. destruct (decide (j = n)) as [->|Hne]; [done|].
    apply Hnone. lia.
Qed.

Lemma scanLinesRight_None nt k m fuel n :
  scanLinesRight nt k m fuel n = None →
  ∀ j, n ≤ j < n + fuel → firstBoundaryOnLine nt k m j = None.
Proof.
  revert n. induction fuel as [|fuel IH]; intros n;
    cbn [Core.scanLinesRight]; [lia|].
  destruct (firstBoundaryOnLine nt k m n) as [b|] eqn:E; [discriminate|].
  intros H j Hj. destruct (decide (j = n)) as [->|Hne]; [done|].
  apply (IH _ H). lia.
Qed.

Lemma scanLinesLeft_skip nt k m n l :
  l ≤ n →
  (∀ j, l < j ≤ n → lastBoundaryOnLine nt k m j = None) →
  scanLinesLeft nt k m n = scanLinesLeft nt k m l.
Proof.
  induction n as [|n IH]; intros Hl Hnone.
  - by replace l with 0 by lia.
  - destruct (decide (l = S n)) as [->|Hne]; [reflexivity|].
    cbn [Core.scanLinesLeft]. rewrite Hnone by lia.
    apply IH; [lia|]. intros j Hj. apply Hnone. lia.
Qed.

Lemma scanLinesLeft_found nt k m l b :
  1 ≤ l → lastBoundaryOnLine nt k m l = Some b →
  scanLinesLeft nt k m l = Some (Pos l b).
Proof.
  destruct l as [|l]; [lia|]. intros _ H.
  cbn [Core.scanLinesLeft]. rewrite H. reflexivity.
Qed.

(** A left movement from line [n], where nothing lies below column [b],
    over lines without boundaries ends on the last boundary of line [l]. *)
Lemma moveWordLeft_over_lines nt k m l s n b :
  1 ≤ l → l < n →
  lastBoundaryOnLine nt k m l = Some s →
  Core.findBoundaryLeft
    (Core.isBoundary nt (Core.classesOfLine defaultValue nt k m n)) b = None →
  (∀ j, l < j < n → lastBoundaryOnLine nt k m j = None) →
  Core.moveWordLeft defaultValue k m (Pos n b) nt = Pos l s.
Proof.
  intros Hl Hln Hlast Hbelow Hnone.
  unfold Core.moveWordLeft, Core.boundaryLeft, Pos. cbn [lineNumber column].
  rewrite Hbelow.
  rewrite (scanLinesLeft_skip nt k m (n - 1) l) by
    (try lia; intros j Hj; apply Hnone; lia).
  rewrite (scanLinesLeft_found nt k m l s) by done.
  reflexivity.
Qed.

Lemma getLineContent_nonempty m n :
  getLineContent m n ≠ [] → 1 ≤ n ≤ getLineCount m.
Proof.
  destruct n as [|i]; cbn [getLineContent]; [done|].
  intros H. destruct (lines m !! i) as [l|] eqn:E; [|done].
  apply lookup_lt_Some in E. unfold getLineCount. lia.
Qed.

(** What a maximal Regular run gives the WordStart scan: its start is a
    boundary, and no column after the start up to a column inside the run
    is one. *)
Lemma regularRun_boundaries (cs : list WordCharacterClass) (s c e : nat) :
  Core.isMaximalRegularRun cs s e = true → s < c < e →
  1 ≤ s ∧ c ≤ length cs ∧ cs ≠ []
  ∧ Core.isBoundary WordStart cs s = true
  ∧ ∀ b, s < b ≤ c → Core.isBoundary WordStart cs b = false.
Proof.
  unfold Core.isMaximalRegularRun. intros H Hc.
  repeat (apply andb_true_iff in H as [H ?]).
  apply Nat.leb_le in H.
  match goal with Hf : forallb _ _ = true |- _ =>
    rewrite List.forallb_forall in Hf; rename Hf into Hreg end.
  assert (HR : ∀ i, s ≤ i < e → Core.classAfter cs i = Some Regular).
  { intros i Hi. eapply bool_decide_eq_true_1.
    apply (Hreg i). apply List.in_seq. lia. }
  assert (Hne : cs ≠ []).
  { intros ->. specialize (HR s ltac:(lia)).
    destruct s; cbn in HR; discriminate. }
  assert (Hlen : c ≤ length cs).
  { specialize (HR c ltac:(lia)). destruct c as [|i]; [lia|].
    cbn [Core.classAfter] in HR. apply lookup_lt_Some in HR. lia. }
  repeat split; [lia | done | done | |].
  - unfold Core.isBoundary, Core.wordStartAt.
    apply orb_true_iff. right. apply andb_true_iff. split; [|done].
    apply bool_decide_eq_true_2. apply HR. lia.
  - intros b Hb. unfold Core.isBoundary, Core.emptyLineAt, Core.wordStartAt.
    rewrite (bool_decide_eq_false_2 (cs = [])) by done.
    cbn [andb orb].
    destruct b as [|[|i]]; [lia | lia |].
    cbn [Core.classBefore].
    change (cs !! i) with (Core.classAfter cs (S i)).
    rewrite (HR (S i)) by lia.
    unfold Core.isRegular at 2.
    rewrite bool_decide_eq_true_2 by done.
    cbn [negb]. apply andb_false_r.
Qed.

(** C7: from a position strictly inside a maximal run of Regular
    characters, [moveWordRight] with WordStart followed by [moveWordLeft]
    with WordStart ends on the start column of that run. *)
Theorem moveWordRight_then_moveWordLeft_reaches_run_start
    (k : WordCharacterClassifier) (m : ITextModel) (l s c e : nat) :
  Core.isMaximalRegularRun (Core.classesOfLine defaultValue WordStart k m l) s e
    = true →
  s < c < e →
  Core.moveWordLeft defaultValue k m
    (Core.moveWordRight defaultValue k m (Pos l c) WordStart) WordStart
  = Pos l s.
Proof.
  intros Hrun Hc.
  set (cs := Core.classesOfLine defaultValue WordStart k m l) in *.
  destruct (regularRun_boundaries cs s c e Hrun Hc)
    as (Hs & Hlen & Hne & HPs & Hin).
  assert (Hline : 1 ≤ l ≤ getLineCount m).
  { apply getLineContent_nonempty. intros Hnil. apply Hne.
    unfold cs, Core.classesOfLine. rewrite Hnil. reflexivity. }
  unfold Pos, Core.moveWordRight, Core.boundaryRight.
  cbn [lineNumber column]. fold cs.
  destruct (Core.findBoundaryRight (Core.isBoundary WordStart cs)
              (length cs + 1 - c) (S c)) as [b|] eqn:Eright.
  - (* the next word starts on the same line *)
    apply findBoundaryRight_Some in Eright as (Hb & HPb & Hno).
    cbn [from_option]; unfold Datatypes.id.
    unfold Core.moveWordLeft, Core.boundaryLeft. cbn [lineNumber column]. fold cs.
    assert (Hleft : Core.findBoundaryLeft (Core.isBoundary WordStart cs) b = Some s).
    { apply findBoundaryLeft_Some. repeat split; [lia | lia | done |].
      intros b' Hb'. destruct (decide (b' ≤ c)); [apply Hin; lia | apply Hno; lia]. }
    rewrite Hleft. reflexivity.
  - pose proof (proj1 (findBoundaryRight_None _ _ _) Eright) as Hno.
    assert (Hlast : lastBoundaryOnLine WordStart k m l = Some s).
    { unfold Core.lastBoundaryOnLine. fold cs.
      apply findBoundaryLeft_Some. repeat split; [lia | lia | done |].
      intros b' Hb'. destruct (decide (b' ≤ c)); [apply Hin; lia | apply Hno; lia]. }
    destruct (scanLinesRight WordStart k m (getLineCount m - l) (S l))
      as [q|] eqn:Escan.
    + (* the next word starts on a later line *)
      cbn [from_option]; unfold Datatypes.id.
      apply scanLinesRight_Some in Escan as (Hq & Hfirst & Hnone).
      destruct q as [n b]. cbn [lineNumber column] in *.
      apply (moveWordLeft_over_lines WordStart k m l s n b); [lia | lia | done | |].
      * by apply firstBoundaryOnLine_Some_none_below.
      * intros j Hj. apply firstBoundaryOnLine_None_last. apply Hnone. lia.
    + (* no word follows: the movement stops at the end of the document *)
      cbn [from_option]; unfold Datatypes.id.
      pose proof (scanLinesRight_None _ _ _ _ _ Escan) as Hnone.
      destruct (decide (l = getLineCount m)) as [Heq|Hlt].
      * rewrite <- Heq. unfold getLineMaxColumn.
        rewrite <- (classesOfLine_length defaultValue WordStart k m l). fold cs.
        unfold Core.moveWordLeft, Core.boundaryLeft. cbn [lineNumber column]. fold cs.
        assert (Hleft : Core.findBoundaryLeft (Core.isBoundary WordStart cs)
                          (length cs + 1) = Some s).
        { apply findBoundaryLeft_Some. repeat split; [lia | lia | done |].
          intros b' Hb'.
          destruct (decide (b' ≤ c)); [apply Hin; lia | apply Hno; lia]. }
        rewrite Hleft. reflexivity.
      * apply (moveWordLeft_over_lines WordStart k m l s); [lia | lia | done | |].
        -- assert (Hn : lastBoundaryOnLine WordStart k m (getLineCount m) = None).
           { apply firstBoundaryOnLine_None_last. apply Hnone. lia. }
           unfold Core.lastBoundaryOnLine in Hn.
           rewrite findBoundaryLeft_None in Hn.
           apply findBoundaryLeft_None. intros b Hb. apply Hn.
           unfold getLineMaxColumn in Hb.
           rewrite classesOfLine_length. lia.
        -- intros j Hj. apply firstBoundaryOnLine_None_last. apply Hnone. lia.
Qed.

End RoundTrip.

Lemma moveWordRight_then_moveWordLeft_witness :
  Core.isMaximalRegularRun
    (Core.classesOfLine exampleSeparators WordStart exampleClassifier
       (mkModel [units "say hello.world"; units ""; units "  bye"]) 1) 5 10 = true
  ∧ 5 < 7 < 10
  ∧ Core.moveWordLeft exampleSeparators exampleClassifier
      (mkModel [units "say hello.world"; units ""; units "  bye"])
      (Core.moveWordRight exampleSeparators exampleClassifier
         (mkModel [units "say hello.world"; units ""; units "  bye"])
         (Pos 1 7) WordStart) WordStart
    = Pos 1 5.
Proof.
  split; [reflexivity|]. split; [lia|].
  apply (moveWordRight_then_moveWordLeft_reaches_run_start exampleSeparators
           exampleClassifier
           (mkModel [units "say hello.world"; units ""; units "  bye"]) 1 5 7 10).
  - reflexivity.
  - lia.
Defined.

(** * Further properties of the commands *)

Section RunProperties.
Context `{ops : WordOperations}.
Variable defaultValue : JSString.

Lemma cmapM_length {A B : Type} (f : A → Cached B) (l : list A) cache :
  length (cmapM f l cache).1 = length l.
Proof.
  revert cache. induction l as [|a l IH]; intros cache; [reflexivity|].
  cbn [cmapM]. unfold cbind, cret.
  destruct (f a cache) as [b c1]. specialize (IH c1).
  destruct (cmapM f l c1) as [bs c2]. cbn in *. by rewrite IH.
Qed.

(** Mapping a computation and then a pure function of the input and the
    output is mapping the computation and zipping. *)
Lemma cmapM_post {A B C : Type} (g : A → Cached B) (h : A → B → C) (l : list A) cache :
  cmapM (λ a, b ←ᶜ g a; cret (h a b)) l cache
  = ((zip_with h l (cmapM g l cache).1), (cmapM g l cache).2).
Proof.
  revert cache. induction l as [|a l IH]; intros cache; [reflexivity|].
  cbn [cmapM]. unfold cbind, cret in *.
  destruct (g a cache) as [b c1]. rewrite IH.
  destruct (cmapM g l c1) as [bs c2]. reflexivity.
Qed.

Lemma cmapM_pure {A B : Type} (g : A → B) (l : list A) cache :
  cmapM (λ a, cret (g a)) l cache = (g <$> l, cache).
Proof.
  induction l as [|a l IH]; [reflexivity|].
  cbn [cmapM]. unfold cbind, cret in *. rewrite IH. reflexivity.
Qed.

Lemma cbind_run {A B : Type} (m : Cached A) (f : A → Cached B) cache :
  cbind m f cache = f (m cache).1 (m cache).2.
Proof. unfold cbind. destruct (m cache). reflexivity. Qed.

Lemma MoveWordCommand_run_positions cmd editor m cache :
  editor_model editor = Some m →
  MoveWordCommand_runEditorCommand cmd editor cache
  = (effectsOfMove
       (zip_with (λ sel p, _moveTo sel p (inSelectionMode (move_opts cmd)))
          (editor_selections editor) (positionsOf cmd editor m cache).1),
     (positionsOf cmd editor m cache).2).
Proof.
  intros Hm. unfold MoveWordCommand_runEditorCommand, positionsOf. rewrite Hm.
  cbv zeta. rewrite !cbind_run.
  set (k := (getMapForWordSeparators (editor_wordSeparators editor) cache).1).
  set (c1 := (getMapForWordSeparators (editor_wordSeparators editor) cache).2).
  rewrite (cmapM_post
    (λ sel, _move cmd k m (mkPosition (positionLineNumber sel) (positionColumn sel))
              (wordNavigationType (move_opts cmd)))
    (λ sel p, _moveTo sel p (inSelectionMode (move_opts cmd)))).
  reflexivity.
Qed.

Lemma cmapM_invariant {A B : Type}
    (Inv : gmap (list Z) WordCharacterClassifier → Prop)
    (f : A → Cached B) (g : A → B) (l : list A) cache :
  (∀ a c, Inv c → (f a c).1 = g a ∧ Inv (f a c).2) →
  Inv cache →
  (cmapM f l cache).1 = g <$> l ∧ Inv (cmapM f l cache).2.
Proof.
  intros Hf. revert cache. induction l as [|a l IH]; intros cache Hc; [done|].
  cbn [cmapM]. rewrite !cbind_run. unfold cret. cbn [fst snd].
  destruct (Hf a cache Hc) as [Ha Hc1].
  destruct (IH _ Hc1) as [Hl Hc2].
  rewrite Ha, Hl. done.
Qed.

Lemma positionsOf_length cmd editor m cache :
  length (positionsOf cmd editor m cache).1 = length (editor_selections editor).
Proof. unfold positionsOf. rewrite cbind_run. apply cmapM_length. Qed.

Lemma moveTo_position (sel : Selection) (p : Position) (mode : bool) :
  Selection_getPosition (_moveTo sel p mode) = p.
Proof. destruct p, mode; reflexivity. Qed.

Lemma moveTo_positions (mode : bool) (sels : list Selection) (ps : list Position) :
  length ps = length sels →
  Selection_getPosition <$> zip_with (λ sel p, _moveTo sel p mode) sels ps = ps.
Proof.
  revert ps. induction sels as [|sel sels IH]; intros [|p ps] Hlen;
    cbn in *; try done.
  rewrite moveTo_position, IH by lia. reflexivity.
Qed.

Lemma moveTo_anchors_selecting (sels : list Selection) (ps : list Position) :
  length ps = length sels →
  selectionAnchor <$> zip_with (λ sel p, _moveTo sel p true) sels ps
  = selectionAnchor <$> sels.
Proof.
  revert ps. induction sels as [|sel sels IH]; intros [|p ps] Hlen;
    cbn in *; try done.
  rewrite IH by lia. reflexivity.
Qed.

Lemma moveTo_anchors_moving (sels : list Selection) (ps : list Position) :
  length ps = length sels →
  selectionAnchor <$> zip_with (λ sel p, _moveTo sel p false) sels ps = ps.
Proof.
  revert ps. induction sels as [|sel sels IH]; intros [|p ps] Hlen;
    cbn in *; try done.
  rewrite IH by lia. by destruct p.
Qed.

Lemma positionsRevealed_effectsOfMove (result : list Selection) :
  positionsRevealed (effectsOfMove result)
  = match Selection_getPosition <$> result with
    | [p] => [p]
    | _ => []
    end.
Proof. by destruct result as [|r [|r' result]]. Qed.

Lemma cursorStatesSet_effectsOfMove (result : list Selection) :
  cursorStatesSet (effectsOfMove result) = [result].
Proof. by destruct result as [|r [|r' result]]. Qed.

(** X1: a move command without a model does nothing. With a model it sets
    the cursor states once, to as many selections as the editor had, and
    reveals the new cursor position exactly when there is a single cursor. *)
Theorem move_command_keeps_cursor_count
    (cmd : MoveWordCommand) (editor : ICodeEditor) cache :
  match editor_model editor with
  | None => MoveWordCommand_runEditorCommand cmd editor cache = ([], cache)
  | Some _ =>
      ∃ result,
        cursorStatesSet (MoveWordCommand_runEditorCommand cmd editor cache).1
        = [result]
        ∧ length result = length (editor_selections editor)
        ∧ positionsRevealed (MoveWordCommand_runEditorCommand cmd editor cache).1
          = match result with
            | [r] => [Selection_getPosition r]
            | _ => []
            end
  end.
Proof.
  destruct (editor_model editor) as [m|] eqn:Hm.
  - rewrite (MoveWordCommand_run_positions cmd editor m cache Hm). cbn [fst].
    eexists. split; [apply cursorStatesSet_effectsOfMove|].
    split.
    + rewrite length_zip_with, positionsOf_length. lia.
    + rewrite positionsRevealed_effectsOfMove.
      by destruct (zip_with _ _ _) as [|r [|r' result]].
  - unfold MoveWordCommand_runEditorCommand. rewrite Hm. reflexivity.
Qed.

(** X2: in selection mode a move command leaves the anchor of every
    selection where it was; out of selection mode every resulting selection
    is collapsed, its anchor on its active end. In both modes the active
    ends are the positions [_move] answered, in the order of the
    selections. *)
Theorem move_command_anchor_frame
    (cmd : MoveWordCommand) (editor : ICodeEditor) (m : ITextModel) cache :
  editor_model editor = Some m →
  ∃ result,
    cursorStatesSet (MoveWordCommand_runEditorCommand cmd editor cache).1 = [result]
    ∧ Selection_getPosition <$> result = (positionsOf cmd editor m cache).1
    ∧ selectionAnchor <$> result
      = if inSelectionMode (move_opts cmd)
        then selectionAnchor <$> editor_selections editor
        else Selection_getPosition <$> result.
Proof.
  intros Hm. rewrite (MoveWordCommand_run_positions cmd editor m cache Hm).
  cbn [fst]. eexists. split; [apply cursorStatesSet_effectsOfMove|].
  pose proof (positionsOf_length cmd editor m cache) as Hlen.
  split; [by apply moveTo_positions|].
  destruct (inSelectionMode (move_opts cmd)).
  - by apply moveTo_anchors_selecting.
  - rewrite moveTo_positions by done. by apply moveTo_anchors_moving.
Qed.

(** X3: every move command and its Select counterpart leave the cache in
    the same state and put the active ends of the cursors on the same
    positions, and reveal the same position; they differ in the anchors
    only. *)
Theorem select_counterparts_reach_same_positions (editor : ICodeEditor) cache :
  Forall (λ pair,
      inSelectionMode (move_opts pair.1) = false
      ∧ inSelectionMode (move_opts pair.2) = true
      ∧ (MoveWordCommand_runEditorCommand pair.1 editor cache).2
        = (MoveWordCommand_runEditorCommand pair.2 editor cache).2
      ∧ (λ states : list Selection, Selection_getPosition <$> states)
          <$> cursorStatesSet (MoveWordCommand_runEditorCommand pair.1 editor cache).1
        = (λ states : list Selection, Selection_getPosition <$> states)
            <$> cursorStatesSet (MoveWordCommand_runEditorCommand pair.2 editor cache).1
      ∧ positionsRevealed (MoveWordCommand_runEditorCommand pair.1 editor cache).1
        = positionsRevealed (MoveWordCommand_runEditorCommand pair.2 editor cache).1)
    (selectCounterparts defaultValue).
Proof.
  assert (H : ∀ plain select : MoveWordCommand,
    _move plain = _move select →
    wordNavigationType (move_opts plain) = wordNavigationType (move_opts select) →
    (MoveWordCommand_runEditorCommand plain editor cache).2
    = (MoveWordCommand_runEditorCommand select editor cache).2
    ∧ (λ states : list Selection, Selection_getPosition <$> states)
        <$> cursorStatesSet (MoveWordCommand_runEditorCommand plain editor cache).1
      = (λ states : list Selection, Selection_getPosition <$> states)
          <$> cursorStatesSet (MoveWordCommand_runEditorCommand select editor cache).1
    ∧ positionsRevealed (MoveWordCommand_runEditorCommand plain editor cache).1
      = positionsRevealed (MoveWordCommand_runEditorCommand select editor cache).1).
  { intros plain select Hmove Hnt.
    destruct (editor_model editor) as [m|] eqn:Hm.
    - rewrite !(MoveWordCommand_run_positions _ editor m cache Hm). cbn [fst snd].
      assert (Hpos : positionsOf plain editor m cache = positionsOf select editor m cache).
      { unfold positionsOf. by rewrite Hmove, Hnt. }
      rewrite Hpos.
      rewrite !cursorStatesSet_effectsOfMove, !positionsRevealed_effectsOfMove.
      cbn [fmap list_fmap].
      rewrite !moveTo_positions by apply positionsOf_length. done.
    - unfold MoveWordCommand_runEditorCommand. rewrite Hm. done. }
  unfold selectCounterparts.
  repeat (apply Forall_cons; split;
          [split; [reflexivity|]; split; [reflexivity|]; apply H; reflexivity|]).
  constructor.
Qed.

(** X4: the commands built on [WordLeftCommand] and [WordRightCommand] move
    each cursor on its own: the new selections are the old ones, each moved
    to where [moveWordLeft] (or [moveWordRight]) takes its active end, with
    the classifier of the editor's wordSeparators option; the classifier
    cache is consulted once. *)
Theorem word_commands_move_each_cursor
    (opts : MoveWordOptions) (editor : ICodeEditor) (m : ITextModel) cache :
  editor_model editor = Some m →
  cursorStatesSet (MoveWordCommand_runEditorCommand (WordLeftCommand opts) editor cache).1
  = [ (λ sel, _moveTo sel
         (moveWordLeft
            (getMapForWordSeparators (editor_wordSeparators editor) cache).1 m
            (Selection_getPosition sel) (wordNavigationType opts))
         (inSelectionMode opts)) <$> editor_selections editor ]
  ∧ cursorStatesSet
      (MoveWordCommand_runEditorCommand (WordRightCommand opts) editor cache).1
    = [ (λ sel, _moveTo sel
           (moveWordRight
              (getMapForWordSeparators (editor_wordSeparators editor) cache).1 m
              (Selection_getPosition sel) (wordNavigationType opts))
           (inSelectionMode opts)) <$> editor_selections editor ]
  ∧ (MoveWordCommand_runEditorCommand (WordLeftCommand opts) editor cache).2
    = (getMapForWordSeparators (editor_wordSeparators editor) cache).2
  ∧ (MoveWordCommand_runEditorCommand (WordRightCommand opts) editor cache).2
    = (getMapForWordSeparators (editor_wordSeparators editor) cache).2.
Proof.
  intros Hm.
  rewrite !(MoveWordCommand_run_positions _ editor m cache Hm). cbn [fst snd].
  rewrite !cursorStatesSet_effectsOfMove.
  unfold positionsOf. rewrite !cbind_run.
  cbn [_move WordLeftCommand WordRightCommand move_opts].
  unfold WordLeftCommand_move, WordRightCommand_move.
  rewrite !cmapM_pure. cbn [fst snd].
  rewrite !zip_with_fmap_r, !zip_with_diag. done.
Qed.

(** X5: on a reachable cache the four accessibility commands do the same
    whatever the editor's wordSeparators option is. *)
Theorem accessibility_run_ignores_configured_separators
    (editor : ICodeEditor) (s1 s2 : JSString) cache :
  reachableCache cache →
  Forall (λ cmd,
      (MoveWordCommand_runEditorCommand cmd
         (ICodeEditor_withWordSeparators s1 editor) cache).1
      = (MoveWordCommand_runEditorCommand cmd
           (ICodeEditor_withWordSeparators s2 editor) cache).1)
    (accessibilityCommands defaultValue).
Proof.
  intros Hcache.
  assert (H : ∀ (cmd : MoveWordCommand)
                (mv : WordCharacterClassifier → ITextModel → Position →
                      WordNavigationType → Position),
    (∀ k m p nt c, _move cmd k m p nt c
       = (mv (getMapForWordSeparators defaultValue c).1 m p nt,
          (getMapForWordSeparators defaultValue c).2)) →
    (MoveWordCommand_runEditorCommand cmd
       (ICodeEditor_withWordSeparators s1 editor) cache).1
    = (MoveWordCommand_runEditorCommand cmd
         (ICodeEditor_withWordSeparators s2 editor) cache).1).
  { intros cmd mv Hmv.
    destruct (editor_model editor) as [m|] eqn:Hm.
    - rewrite !(MoveWordCommand_run_positions _ _ m cache) by done.
      cbn [fst]. f_equal. cbn [editor_selections ICodeEditor_withWordSeparators].
      f_equal. unfold positionsOf. rewrite !cbind_run.
      cbn [editor_selections editor_wordSeparators ICodeEditor_withWordSeparators].
      set (g := λ sel : Selection,
             mv (WordCharacterClassifier_new defaultValue) m
                (Selection_getPosition sel) (wordNavigationType (move_opts cmd))).
      assert (Hstep : ∀ k (sel : Selection) c, reachableCache c →
        (_move cmd k m (Selection_getPosition sel)
           (wordNavigationType (move_opts cmd)) c).1 = g sel
        ∧ reachableCache (_move cmd k m (Selection_getPosition sel)
                            (wordNavigationType (move_opts cmd)) c).2).
      { intros k sel c Hc. rewrite Hmv. cbn [fst snd]. split.
        - unfold g. by rewrite getMapForWordSeparators_reachable.
        - by constructor. }
      etrans; [|symmetry].
      + apply (cmapM_invariant reachableCache _ g); [by apply Hstep|].
        by constructor.
      + apply (cmapM_invariant reachableCache _ g); [by apply Hstep|].
        by constructor.
    - unfold MoveWordCommand_runEditorCommand.
      cbn [editor_model ICodeEditor_withWordSeparators]. by rewrite Hm. }
  unfold accessibilityCommands.
  repeat (apply List.Forall_cons); [| | | |constructor].
  - apply (H _ moveWordLeft). intros. cbn [_move CursorWordAccessibilityLeft].
    unfold CursorWordAccessibilityLeft_move. by rewrite cbind_run.
  - apply (H _ moveWordLeft). intros. cbn [_move CursorWordAccessibilityLeftSelect].
    unfold CursorWordAccessibilityLeft_move. by rewrite cbind_run.
  - apply (H _ moveWordRight). intros. cbn [_move CursorWordAccessibilityRight].
    unfold CursorWordAccessibilityRight_move. by rewrite cbind_run.
  - apply (H _ moveWordRight). intros. cbn [_move CursorWordAccessibilityRightSelect].
    unfold CursorWordAccessibilityRight_move. by rewrite cbind_run.
Qed.

(** X6: no two of the registered commands share an id, and no two of them
    declare the same primary key binding. *)
Theorem registered_commands_do_not_collide :
  NoDup (registeredIds defaultValue)
  ∧ NoDup (registeredPrimaryKeybindings defaultValue).
Proof.
  split.
  - apply (bool_decide_unpack (NoDup (registeredIds defaultValue))).
    vm_compute. exact I.
  - apply (bool_decide_unpack (NoDup (registeredPrimaryKeybindings defaultValue))).
    vm_compute. exact I.
Qed.



Lemma DeleteWordCommand_run_edits (dcmd : DeleteWordCommand)
    (editor : ICodeEditor) (m : ITextModel) cache :
  editor_model editor = Some m →
  editsExecuted (DeleteWordCommand_runEditorCommand dcmd editor cache).1
  = [(delete_id (delete_opts dcmd),
      (λ sel,
         _delete dcmd
           {| wordSeparators :=
                (getMapForWordSeparators (editor_wordSeparators editor) cache).1;
              model := m;
              selection := sel;
              whitespaceHeuristics := delete_whitespaceHeuristics (delete_opts dcmd);
              autoClosingDelete := editor_autoClosingDelete editor;
              autoClosingBrackets := editor_autoClosingBrackets editor;
              autoClosingQuotes := editor_autoClosingQuotes editor;
              autoClosingPairs := editor_autoClosingPairs editor;
              autoClosedCharacters := editor_autoClosedCharacters editor |}
           (delete_wordNavigationType (delete_opts dcmd)))
      <$> editor_selections editor)].
Proof.
  intros Hm. unfold DeleteWordCommand_runEditorCommand.
  rewrite Hm, cbind_run. reflexivity.
Qed.

(** X24: what the six delete commands hand to the core. On an editor with
    a model each executes, under its own id, one range per selection: the
    answer of [deleteWordLeft] (the three left commands) or
    [deleteWordRight] (the three right commands) for the classifier of the
    editor's separators, the model, the selection and the editor's
    auto-closing configuration, with (1,1)-(1,1), respectively the end of
    the last line, in place of null. [deleteWordLeft] passes WordStart and
    [deleteWordRight] WordEnd, both with the whitespace heuristic on; the
    Start and End variants pass their own navigation type with the
    heuristic off. *)
Theorem delete_commands_pass_their_options
    (editor : ICodeEditor) (m : ITextModel) cache :
  editor_model editor = Some m →
  let ctx heuristics sel :=
    {| wordSeparators :=
         (getMapForWordSeparators (editor_wordSeparators editor) cache).1;
       model := m;
       selection := sel;
       whitespaceHeuristics := heuristics;
       autoClosingDelete := editor_autoClosingDelete editor;
       autoClosingBrackets := editor_autoClosingBrackets editor;
       autoClosingQuotes := editor_autoClosingQuotes editor;
       autoClosingPairs := editor_autoClosingPairs editor;
       autoClosedCharacters := editor_autoClosedCharacters editor |} in
  let documentEnd :=
    mkRange (getLineCount m) (getLineMaxColumn m (getLineCount m))
            (getLineCount m) (getLineMaxColumn m (getLineCount m)) in
  let left heuristics nt sel :=
    default (mkRange 1 1 1 1) (deleteWordLeft (ctx heuristics sel) nt) in
  let right heuristics nt sel :=
    default documentEnd (deleteWordRight (ctx heuristics sel) nt) in
  let edits dcmd := editsExecuted (DeleteWordCommand_runEditorCommand dcmd editor cache).1 in
  edits DeleteWordLeft
    = [("deleteWordLeft", left true WordStart <$> editor_selections editor)]
  ∧ edits DeleteWordRight
    = [("deleteWordRight", right true WordEnd <$> editor_selections editor)]
  ∧ edits DeleteWordStartLeft
    = [("deleteWordStartLeft", left false WordStart <$> editor_selections editor)]
  ∧ edits DeleteWordEndLeft
    = [("deleteWordEndLeft", left false WordEnd <$> editor_selections editor)]
  ∧ edits DeleteWordStartRight
    = [("deleteWordStartRight", right false WordStart <$> editor_selections editor)]
  ∧ edits DeleteWordEndRight
    = [("deleteWordEndRight", right false WordEnd <$> editor_selections editor)].
Proof.
  intros Hm ctx documentEnd left right edits. subst edits.
  repeat split; cbv beta; rewrite (DeleteWordCommand_run_edits _ editor m cache Hm);
    cbn [delete_opts delete_id delete_whitespaceHeuristics delete_wordNavigationType
         _delete DeleteWordLeft DeleteWordRight DeleteWordStartLeft DeleteWordEndLeft
         DeleteWordStartRight DeleteWordEndRight DeleteWordLeftCommand
         DeleteWordRightCommand];
    do 2 f_equal; apply list_fmap_ext; intros _ sel _;
    unfold left, right, DeleteWordLeftCommand_delete, DeleteWordRightCommand_delete;
    fold (ctx true sel); fold (ctx false sel).
  all: try (by destruct (deleteWordLeft _ _)).
  all: destruct (deleteWordRight _ _); [reflexivity|];
    cbn [default model]; apply Range_new_collapsed.
Qed.

End RunProperties.

Lemma delete_commands_pass_their_options_witness :
  editor_model exampleEditor = Some (mkModel [units "foo bar"])
  ∧ editsExecuted
      (DeleteWordCommand_runEditorCommand
         (@DeleteWordLeft (coreWordOperations exampleSeparators)) exampleEditor ∅).1
    = [("deleteWordLeft", [mkRange 1 1 1 6; mkRange 1 5 1 8])]
  ∧ editsExecuted
      (DeleteWordCommand_runEditorCommand
         (@DeleteWordEndRight (coreWordOperations exampleSeparators)) exampleEditor ∅).1
    = [("deleteWordEndRight", [mkRange 1 1 1 6; mkRange 1 8 1 8])].
Proof.
  split; [reflexivity|].
  pose proof (@delete_commands_pass_their_options
                (coreWordOperations exampleSeparators)
                exampleEditor (mkModel [units "foo bar"]) ∅ eq_refl)
    as (Hl & _ & _ & _ & _ & Hr).
  split.
  - etrans; [exact Hl|]. vm_compute. reflexivity.
  - etrans; [exact Hr|]. vm_compute. reflexivity.
Defined.

Lemma move_command_anchor_frame_witness :
  editor_model exampleEditor = Some (mkModel [units "foo bar"])
  ∧ ∃ result,
      cursorStatesSet
        (MoveWordCommand_runEditorCommand
           (@CursorWordLeftSelect (coreWordOperations exampleSeparators))
           exampleEditor ∅).1 = [result]
      ∧ Selection_getPosition <$> result
        = (positionsOf (@CursorWordLeftSelect (coreWordOperations exampleSeparators))
             exampleEditor (mkModel [units "foo bar"]) ∅).1
      ∧ selectionAnchor <$> result
        = if inSelectionMode
               (move_opts (@CursorWordLeftSelect (coreWordOperations exampleSeparators)))
          then selectionAnchor <$> editor_selections exampleEditor
          else Selection_getPosition <$> result.
Proof.
  split; [reflexivity|].
  apply (@move_command_anchor_frame
           (@CursorWordLeftSelect (coreWordOperations exampleSeparators))
           exampleEditor (mkModel [units "foo bar"]) ∅).
  reflexivity.
Defined.

Lemma word_commands_move_each_cursor_witness :
  editor_model exampleEditor = Some (mkModel [units "foo bar"])
  ∧ cursorStatesSet
      (MoveWordCommand_runEditorCommand
         (@CursorWordStartLeft (coreWordOperations exampleSeparators))
         exampleEditor ∅).1
    = [[mkSelection 1 5 1 5; mkSelection 1 5 1 5]]
  ∧ cursorStatesSet
      (MoveWordCommand_runEditorCommand
         (@CursorWordEndRightSelect (coreWordOperations exampleSeparators))
         exampleEditor ∅).1
    = [[mkSelection 1 1 1 8; mkSelection 1 8 1 8]].
Proof.
  split; [reflexivity|].
  pose proof (@word_commands_move_each_cursor (coreWordOperations exampleSeparators)
                (move_opts (@CursorWordStartLeft (coreWordOperations exampleSeparators)))
                exampleEditor (mkModel [units "foo bar"]) ∅ eq_refl) as (Hl & _).
  pose proof (@word_commands_move_each_cursor (coreWordOperations exampleSeparators)
                (move_opts (@CursorWordEndRightSelect
                              (coreWordOperations exampleSeparators)))
                exampleEditor (mkModel [units "foo bar"]) ∅ eq_refl) as (_ & Hr & _).
  split.
  - etrans; [exact Hl|]. vm_compute. reflexivity.
  - etrans; [exact Hr|]. vm_compute. reflexivity.
Defined.

Lemma accessibility_run_ignores_configured_separators_witness :
  reachableCache ∅
  ∧ Forall (λ cmd,
      (MoveWordCommand_runEditorCommand cmd
         (ICodeEditor_withWordSeparators (units "_") exampleEditor) ∅).1
      = (MoveWordCommand_runEditorCommand cmd
           (ICodeEditor_withWordSeparators (units ".,") exampleEditor) ∅).1)
    (@accessibilityCommands (coreWordOperations exampleSeparators) exampleSeparators).
Proof.
  split; [constructor|].
  apply (@accessibility_run_ignores_configured_separators
           (coreWordOperations exampleSeparators) exampleSeparators
           exampleEditor (units "_") (units ".,") ∅).
  constructor.
Defined.

(** * Target platforms *)

Section TargetPlatforms.
Import ExtensionManagement.

Lemma toTargetPlatform_cases (s : string) :
  toTargetPlatform s = UNKNOWN
  ∨ s = TargetPlatform_value (toTargetPlatform s).
Proof.
  unfold toTargetPlatform.
  repeat match goal with
  | |- context [String.eqb s ?v] =>
      destruct (String.eqb_spec s v) as [->|]; [right; reflexivity|]
  end.
  by left.
Qed.

Lemma getTargetPlatform_cases (platform : Platform) (arch : option string) :
  (getTargetPlatform platform arch = UNKNOWN
   ∨ platformOf (getTargetPlatform platform arch) = Some platform)
  ∧ getTargetPlatform platform arch ≠ UNIVERSAL
  ∧ getTargetPlatform platform arch ≠ UNDEFINED.
Proof.
  destruct platform; cbn [getTargetPlatform];
    repeat match goal with
    | |- context [archIs arch ?v] => destruct (archIs arch v)
    end; cbn; repeat split; try (by left); try (by right); try done.
Qed.

(** X8: [toTargetPlatform] reads back every member of the enum from its
    string, except [UNDEFINED], whose string it answers with [UNKNOWN]. *)
Theorem toTargetPlatform_value (p : TargetPlatform) :
  toTargetPlatform (TargetPlatform_value p)
  = if decide (p = UNDEFINED) then UNKNOWN else p.
Proof. by destruct p. Qed.

(** X9: [toTargetPlatform] never answers [UNDEFINED], and whenever it
    answers a platform other than [UNKNOWN] its argument is exactly that
    platform's string: a string in another case, or with spaces around it,
    is [UNKNOWN]. *)
Theorem toTargetPlatform_sound (s : string) :
  toTargetPlatform s ≠ UNDEFINED
  ∧ (toTargetPlatform s = UNKNOWN
     ∨ s = TargetPlatform_value (toTargetPlatform s)).
Proof.
  split; [|apply toTargetPlatform_cases].
  destruct (toTargetPlatform_cases s) as [H|H]; [by rewrite H|].
  intros Hu. rewrite Hu in H. subst s. discriminate.
Qed.

(** X10: [getTargetPlatform] stays within the platform it is given: its
    answer is a target of that very platform or [UNKNOWN], it is [WEB]
    exactly for the web platform, whatever the architecture, and it is never
    [UNIVERSAL] or [UNDEFINED]. *)
Theorem getTargetPlatform_family (platform : Platform) (arch : option string) :
  (getTargetPlatform platform arch = UNKNOWN
   ∨ platformOf (getTargetPlatform platform arch) = Some platform)
  ∧ (getTargetPlatform platform arch = WEB ↔ platform = Platform_Web)
  ∧ getTargetPlatform platform arch ≠ UNIVERSAL
  ∧ getTargetPlatform platform arch ≠ UNDEFINED.
Proof.
  destruct (getTargetPlatform_cases platform arch) as (Hfam & Hu & Hd).
  repeat split; try done.
  - intros Hw. destruct Hfam as [Hfam|Hfam]; rewrite Hw in Hfam;
      [discriminate | by injection Hfam].
  - by intros ->.
Qed.

Lemma archIs_eq (arch : option string) (s : string) :
  archIs arch s = true → arch = Some s.
Proof.
  destruct arch as [a|]; cbn; [|done].
  by intros ->%String.eqb_eq.
Qed.

(** X11: a recognised target platform determines what it was computed from:
    two calls of [getTargetPlatform] with the same answer other than
    [UNKNOWN] were given the same platform and, off the web, the same
    architecture. *)
Theorem getTargetPlatform_injective
    (p1 p2 : Platform) (a1 a2 : option string) :
  getTargetPlatform p1 a1 = getTargetPlatform p2 a2 →
  getTargetPlatform p1 a1 ≠ UNKNOWN →
  p1 = p2 ∧ (p1 = Platform_Web ∨ a1 = a2).
Proof.
  destruct p1, p2; cbn [getTargetPlatform];
    repeat match goal with
    | |- context [archIs ?a ?v] =>
        let E := fresh "E" in
        destruct (archIs a v) eqn:E; [apply archIs_eq in E|clear E]
    end; intros Heq Hne; try discriminate; try done;
    split; try reflexivity; try (by left); right; congruence.
Qed.

(** X12: the string of what [getTargetPlatform], [getTargetPlatformFromOS]
    and [CURRENT_TARGET_PLATFORM] answer is read back by [toTargetPlatform]
    as the same platform; [getTargetPlatformFromOS] never answers [WEB]. *)
Theorem toTargetPlatform_getTargetPlatform
    (platform : Platform) (os : OperatingSystem) (arch : option string)
    (a : string) (isWeb : bool) :
  toTargetPlatform (TargetPlatform_value (getTargetPlatform platform arch))
  = getTargetPlatform platform arch
  ∧ toTargetPlatform
      (TargetPlatform_value (CURRENT_TARGET_PLATFORM isWeb platform arch))
    = CURRENT_TARGET_PLATFORM isWeb platform arch
  ∧ toTargetPlatform (TargetPlatform_value (getTargetPlatformFromOS os a))
    = getTargetPlatformFromOS os a
  ∧ getTargetPlatformFromOS os a ≠ WEB.
Proof.
  assert (H : ∀ p arch,
    toTargetPlatform (TargetPlatform_value (getTargetPlatform p arch))
    = getTargetPlatform p arch).
  { intros p arch'.
    destruct (getTargetPlatform_cases p arch') as (_ & _ & Hd).
    by destruct (getTargetPlatform p arch'). }
  split; [apply H|].
  split; [unfold CURRENT_TARGET_PLATFORM; destruct isWeb; [reflexivity|apply H]|].
  split; [apply H|].
  unfold getTargetPlatformFromOS. intros Hw.
  destruct os;
    match type of Hw with getTargetPlatform ?p _ = _ =>
      destruct (getTargetPlatform_cases p (Some a)) as ([Hfam|Hfam] & _)
    end; rewrite Hw in Hfam; discriminate.
Qed.

End TargetPlatforms.

Lemma getTargetPlatform_injective_witness :
  ExtensionManagement.getTargetPlatform ExtensionManagement.Platform_Linux (Some "arm")
  = ExtensionManagement.getTargetPlatform ExtensionManagement.Platform_Linux (Some "arm")
  ∧ ExtensionManagement.getTargetPlatform ExtensionManagement.Platform_Linux (Some "arm")
    ≠ ExtensionManagement.UNKNOWN
  ∧ ExtensionManagement.Platform_Linux = ExtensionManagement.Platform_Linux
  ∧ (ExtensionManagement.Platform_Linux = ExtensionManagement.Platform_Web
     ∨ Some "arm" = Some "arm").
Proof.
  split; [reflexivity|]. split; [discriminate|].
  apply (getTargetPlatform_injective
           ExtensionManagement.Platform_Linux ExtensionManagement.Platform_Linux
           (Some "arm") (Some "arm")).
  - reflexivity.
  - discriminate.
Defined.

(** * Extension identifiers *)

Section ExtensionIdentifierProperties.
Variable Num : Type.
Variable numIsFalsy : Num → bool.

Import ExtensionIdentifier.

Abbreviation isIExtensionIdentifier :=
  (ExtensionIdentifier.isIExtensionIdentifier Num numIsFalsy).
Abbreviation hasIdentifierShape :=
  (ExtensionIdentifier.hasIdentifierShape Num numIsFalsy).
Abbreviation anyValue := (ExtensionIdentifier.AnyValue Num).
Abbreviation truthy := (ExtensionIdentifier.truthy Num numIsFalsy).
Abbreviation typeOf := (@ExtensionIdentifier.typeof Num).
Abbreviation plainAnswer := (ExtensionIdentifier.plainAnswer Num numIsFalsy).

Lemma isIExtensionIdentifier_data (d : JS.Value Num) :
  isIExtensionIdentifier (Data d) = (Normal (plainAnswer (Data d)), Data d).
Proof.
  unfold ExtensionIdentifier.isIExtensionIdentifier, logicalAnd, logicalOr,
    logicalNot, typeofIs, member, var, plainAnswer.
  destruct d as [| |b|n|s|fields|]; cbn; try done.
  - destruct b; done.
  - destruct (numIsFalsy n) eqn:E; repeat (progress (cbn; rewrite ?E)); done.
  - destruct (s =? "")%string eqn:E; repeat (progress (cbn; rewrite ?E)); done.
  - destruct (fields !! "id") as [[| |b|n|s| |]|]; cbn; try done.
    destruct (fields !! "uuid") as [[| |b|n|s'| |]|]; cbn; try done.
    + by destruct b.
    + by destruct (numIsFalsy n).
    + by destruct (s' =? "")%string.
Qed.

(** The evaluation on an object whose reads run code, read by read. *)
Lemma isIExtensionIdentifier_exotic (State : Type) (state : State)
    (get : string → State → Completion anyValue * State) :
  isIExtensionIdentifier (Exotic false State state get)
  = match get "id" state with
    | (Throw, s1) => (Throw, Exotic false State s1 get)
    | (Normal id, s1) =>
        if String.eqb (typeOf id) "string"
        then match get "uuid" s1 with
             | (Throw, s2) => (Throw, Exotic false State s2 get)
             | (Normal uuid, s2) =>
                 if truthy uuid
                 then match get "uuid" s2 with
                      | (Throw, s3) => (Throw, Exotic false State s3 get)
                      | (Normal uuid', s3) =>
                          (Normal (Data (JS.Bool (String.eqb (typeOf uuid') "string"))),
                           Exotic false State s3 get)
                      end
                 else (Normal (Data (JS.Bool true)), Exotic false State s2 get)
             end
        else (Normal (Data (JS.Bool false)), Exotic false State s1 get)
    end.
Proof.
  unfold ExtensionIdentifier.isIExtensionIdentifier, logicalAnd, logicalOr,
    logicalNot, typeofIs, member, var.
  cbn. destruct (get "id" state) as [[id|] s1]; cbn; [|done].
  destruct (String.eqb (typeOf id) "string"); cbn; [|done].
  destruct (get "uuid" s1) as [[uuid|] s2]; cbn; [|done].
  destruct (truthy uuid); cbn; [|done].
  by destruct (get "uuid" s2) as [[uuid'|] s3].
Qed.

(** X13: [isIExtensionIdentifier] reads properties only of a truthy argument
    whose [typeof] is ['object']. On an argument whose reads run no code (a
    primitive, a function, an object of data properties, a callable object)
    it does not throw and leaves the argument as it was: a falsy argument
    is answered itself, not a boolean, and a truthy one [true] exactly when
    it is an object whose [id] is a string and whose [uuid] is a string or
    falsy (absent, null, 0, the empty string, false). On an object whose
    reads run code (an accessor, a Proxy) it does not throw if no read
    throws, and throws if the read of [id] throws, or if [id] is a string
    and the read of [uuid] throws; when [id] is not a string it answers
    [false] without reading [uuid]. Whatever it answers is the falsy
    argument itself or a boolean. *)
Theorem isIExtensionIdentifier_result :
  (∀ thing : anyValue,
     readsRunCode thing = false →
     isIExtensionIdentifier thing = (Normal (plainAnswer thing), thing))
  ∧ (∀ (State : Type) (state : State) get,
       (∀ key σ, (get key σ).1 ≠ Throw) →
       ∃ b thing',
         isIExtensionIdentifier (Exotic false State state get)
         = (Normal (Data (JS.Bool b)), thing'))
  ∧ (∀ (State : Type) (state s1 : State) get,
       get "id" state = (Throw, s1) →
       isIExtensionIdentifier (Exotic false State state get)
       = (Throw, Exotic false State s1 get))
  ∧ (∀ (State : Type) (state s1 s2 : State) get id,
       get "id" state = (Normal id, s1) →
       typeOf id = "string" →
       get "uuid" s1 = (Throw, s2) →
       isIExtensionIdentifier (Exotic false State state get)
       = (Throw, Exotic false State s2 get))
  ∧ (∀ (State : Type) (state s1 : State) get id,
       get "id" state = (Normal id, s1) →
       typeOf id ≠ "string" →
       isIExtensionIdentifier (Exotic false State state get)
       = (Normal (Data (JS.Bool false)), Exotic false State s1 get))
  ∧ (∀ (thing r thing' : anyValue),
       isIExtensionIdentifier thing = (Normal r, thing') →
       (truthy thing = false ∧ r = thing) ∨ ∃ b, r = Data (JS.Bool b)).
Proof.
  assert (Hplain : ∀ thing : anyValue,
            readsRunCode thing = false →
            isIExtensionIdentifier thing = (Normal (plainAnswer thing), thing)).
  { intros [d| |n|[|] State state get] Hr; try discriminate.
    - apply isIExtensionIdentifier_data.
    - reflexivity.
    - unfold ExtensionIdentifier.isIExtensionIdentifier, logicalAnd, logicalOr,
        logicalNot, typeofIs, member, var, plainAnswer.
      by destruct n.
    - reflexivity. }
  split; [exact Hplain|].
  split.
  { intros State state get Hget. rewrite isIExtensionIdentifier_exotic.
    pose proof (Hget "id" state) as H1.
    destruct (get "id" state) as [[id|] s1]; [|done].
    destruct (String.eqb (typeOf id) "string"); [|by eauto].
    pose proof (Hget "uuid" s1) as H2.
    destruct (get "uuid" s1) as [[uuid|] s2]; [|done].
    destruct (truthy uuid); [|by eauto].
    pose proof (Hget "uuid" s2) as H3.
    destruct (get "uuid" s2) as [[uuid'|] s3]; [|done].
    by eauto. }
  split.
  { intros State state s1 get Hid. by rewrite isIExtensionIdentifier_exotic, Hid. }
  split.
  { intros State state s1 s2 get id Hid Hty Huuid.
    rewrite isIExtensionIdentifier_exotic, Hid, Hty, Huuid. done. }
  split.
  { intros State state s1 get id Hid Hty.
    rewrite isIExtensionIdentifier_exotic, Hid.
    apply String.eqb_neq in Hty. by rewrite Hty. }
  intros thing r thing' Hres.
  destruct (readsRunCode thing) eqn:Hr.
  - destruct thing as [| | |[|] State state get]; try discriminate.
    rewrite isIExtensionIdentifier_exotic in Hres. right.
    destruct (get "id" state) as [[id|] s1]; [|done].
    destruct (String.eqb (typeOf id) "string"); [|injection Hres as <- _; by eauto].
    destruct (get "uuid" s1) as [[uuid|] s2]; [|done].
    destruct (truthy uuid); [|injection Hres as <- _; by eauto].
    destruct (get "uuid" s2) as [[uuid'|] s3]; [|done].
    injection Hres as <- _. by eauto.
  - rewrite (Hplain thing Hr) in Hres. injection Hres as <- _.
    unfold plainAnswer. destruct (truthy thing); [right|left]; by eauto.
Qed.

End ExtensionIdentifierProperties.

Lemma isIExtensionIdentifier_result_witness :
  let run := ExtensionIdentifier.isIExtensionIdentifier Z (Z.eqb 0) in
  let normal v := ExtensionIdentifier.Normal (ExtensionIdentifier.Data v) in
  let object := ExtensionIdentifier.getterObject in
  let identifier :=
    ExtensionIdentifier.Data
      (JS.Object (<["uuid" := JS.Number 0%Z]> {["id" := JS.Str "a.b"]})) in
  let empty := @ExtensionIdentifier.Data Z (JS.Str "") in
  run identifier = (normal (JS.Bool true), identifier)
  ∧ (∃ b thing',
       run (object (normal (JS.Str "a.b")) (normal (JS.Str "u")))
       = (normal (JS.Bool b), thing'))
  ∧ run (object ExtensionIdentifier.Throw (normal JS.Undefined))
    = (ExtensionIdentifier.Throw, object ExtensionIdentifier.Throw (normal JS.Undefined))
  ∧ run (object (normal (JS.Str "a.b")) ExtensionIdentifier.Throw)
    = (ExtensionIdentifier.Throw, object (normal (JS.Str "a.b")) ExtensionIdentifier.Throw)
  ∧ run (object (normal (JS.Number 1%Z)) ExtensionIdentifier.Throw)
    = (normal (JS.Bool false), object (normal (JS.Number 1%Z)) ExtensionIdentifier.Throw)
  ∧ ((ExtensionIdentifier.truthy Z (Z.eqb 0) empty = false ∧ empty = empty)
     ∨ ∃ b, empty = ExtensionIdentifier.Data (JS.Bool b)).
Proof.
  intros run normal object identifier empty.
  destruct (isIExtensionIdentifier_result Z (Z.eqb 0))
    as (Hplain & Hquiet & Hid & Huuid & Hnostring & Hanswer).
  split; [|split; [|split; [|split; [|split]]]].
  - etrans; [apply Hplain; reflexivity|]. vm_compute. reflexivity.
  - apply Hquiet. intros key [].
    cbn. by destruct (String.eqb key "id"), (String.eqb key "uuid").
  - apply (Hid unit () ()). reflexivity.
  - apply (Huuid unit () () () _ (ExtensionIdentifier.Data (JS.Str "a.b")));
      reflexivity.
  - apply (Hnostring unit () () _ (ExtensionIdentifier.Data (JS.Number 1%Z)));
      [reflexivity|discriminate].
  - apply (Hanswer empty _ empty). reflexivity.
Defined.

(** * The migration service client *)

Section DownloadConfigProperties.
Variable Num : Type.
Variable numIsFalsy : Num → bool.
Variable path_join : string → string → string.

(** X14: in the configuration [downloadBinaries] builds, [strictSSL] is the
    [http.proxyStrictSSL] setting when that is truthy and [true] otherwise:
    it is truthy in every case, so that setting [false] does not turn it
    off. [proxy] is the [http.proxy] setting, [installDirectory] is joined
    to the extension path, and every other key of config.json is passed on
    unchanged. *)
Theorem downloadBinaries_strictSSL_always_on
    (extensionPath : string) (config proxy proxyStrictSSL : JS.Value Num)
    (cfg : gmap string (JS.Value Num)) :
  ServiceClient.downloadBinaries_config Num numIsFalsy path_join
    extensionPath config proxy proxyStrictSSL = Some cfg →
  cfg !! "strictSSL"
  = Some (if JS.truthy Num numIsFalsy proxyStrictSSL
          then proxyStrictSSL else JS.Bool true)
  ∧ JS.truthy Num numIsFalsy <$> cfg !! "strictSSL" = Some true
  ∧ cfg !! "proxy" = Some proxy
  ∧ (∃ dir, JS.getProp config "installDirectory" = Some (JS.Str dir)
            ∧ cfg !! "installDirectory" = Some (JS.Str (path_join extensionPath dir)))
  ∧ ∀ key, key ∉ ["strictSSL"; "proxy"; "installDirectory"] →
           Some (default JS.Undefined (cfg !! key)) = JS.getProp config key.
Proof.
  unfold ServiceClient.downloadBinaries_config.
  destruct config as [| | | | |fields|]; try discriminate.
  destruct (fields !! "installDirectory") as [[| | | |dir| |]|] eqn:Hdir;
    try discriminate.
  intros [= <-]. unfold JS.or.
  repeat split.
  - by rewrite lookup_insert_eq.
  - rewrite lookup_insert_eq. cbn.
    by destruct (JS.truthy Num numIsFalsy proxyStrictSSL) eqn:E; rewrite ?E.
  - rewrite lookup_insert_ne by done. by rewrite lookup_insert_eq.
  - exists dir. cbn. rewrite Hdir. split; [done|].
    rewrite !lookup_insert_ne by done. by rewrite lookup_insert_eq.
  - intros key Hkey. cbn.
    rewrite !not_elem_of_cons in Hkey. destruct Hkey as (H1 & H2 & H3 & _).
    by rewrite !lookup_insert_ne by done.
Qed.

End DownloadConfigProperties.

Lemma downloadBinaries_strictSSL_always_on_witness :
  ServiceClient.downloadBinaries_config Z (Z.eqb 0) (λ a b, a +:+ "/" +:+ b)
    "ext" (JS.Object {["installDirectory" := JS.Str "bin"]})
    JS.Undefined (JS.Bool false)
  = Some (<["strictSSL" := JS.Bool true]>
            (<["proxy" := JS.Undefined]>
               (<["installDirectory" := JS.Str "ext/bin"]>
                  {["installDirectory" := JS.Str "bin"]})))
  ∧ (<["strictSSL" := JS.Bool true]>
       (<["proxy" := JS.Undefined]>
          (<["installDirectory" := JS.Str "ext/bin"]>
             ({["installDirectory" := JS.Str "bin"]}
              : gmap string (JS.Value Z))))) !! "strictSSL"
    = Some (JS.Bool true).
Proof.
  split; [reflexivity|].
  apply (downloadBinaries_strictSSL_always_on Z (Z.eqb 0) (λ a b, a +:+ "/" +:+ b)
           "ext" (JS.Object {["installDirectory" := JS.Str "bin"]})
           JS.Undefined (JS.Bool false)).
  reflexivity.
Defined.

Section ServerProviderEventProperties.
Variable Any : Type.
Variable undefined : Any.
Variable ceilFifth : Any → Z.
Variable sizeInKB : Any → Any.
Variable atLeastWarning : Any → bool.

Abbreviation handle :=
  (ServiceClient.handleServerProviderEvent Any undefined ceilFifth sizeInKB
     atLeastWarning).
Abbreviation handleAll :=
  (ServiceClient.handleAll Any undefined ceilFifth sizeInKB atLeastWarning).
Abbreviation levels := (ServiceClient.progressLevels Any undefined ceilFifth).
Abbreviation dotsWritten := (ServiceClient.dotsWritten Any).

Lemma dotsWritten_app (a b : list (ServiceClient.UICall Any)) :
  dotsWritten (a ++ b) = (dotsWritten a + dotsWritten b)%Z.
Proof.
  induction a as [|c a IH]; [reflexivity|].
  destruct c as [| |[]| |]; cbn [app ServiceClient.dotsWritten]; rewrite IH; lia.
Qed.

Lemma handle_step (e : ServiceClient.Events) (args : list Any) (dots : Z) :
  (handle e args dots).1
  = match e with
    | ServiceClient.DOWNLOAD_PROGRESS =>
        Z.max dots (ceilFifth (ServiceClient.arg Any undefined args 0))
    | _ => dots
    end
  ∧ dotsWritten (handle e args dots).2 = ((handle e args dots).1 - dots)%Z.
Proof.
  destruct e; cbn; try (split; [reflexivity|lia]).
  - destruct (Z.ltb_spec dots (ceilFifth (ServiceClient.arg Any undefined args 0)));
      cbn; split; lia.
  - destruct (atLeastWarning _); cbn; split; (reflexivity || lia).
Qed.

Lemma handleAll_dots (events : list (ServiceClient.Events * list Any)) (dots : Z) :
  (0 ≤ dots)%Z →
  (handleAll events dots).1 = Z.max dots (foldr Z.max 0%Z (levels events))
  ∧ dotsWritten (handleAll events dots).2 = ((handleAll events dots).1 - dots)%Z.
Proof.
  revert dots. induction events as [|[e args] events IH]; intros dots Hd.
  - cbn. split; lia.
  - cbn [ServiceClient.handleAll].
    destruct (handle_step e args dots) as [H1 H2].
    destruct (handle e args dots) as [d1 calls] eqn:E. cbn [fst snd] in *.
    assert (Hd1 : (0 ≤ d1)%Z) by (destruct e; lia).
    destruct (IH d1 Hd1) as [H3 H4].
    destruct (handleAll events d1) as [d2 calls'] eqn:E'. cbn [fst snd] in *.
    rewrite dotsWritten_app. split; [|lia].
    rewrite H3. unfold ServiceClient.progressLevels. cbn [omap list_omap fst snd].
    destruct e; cbn [foldr]; subst d1; lia.
Qed.

(** X15: a fresh download listener writes, over any sequence of events, as
    many dots as the highest progress level [Math.ceil(progress / 5)] it was
    told, none when no level above 0 was reported: progress that repeats or
    goes back writes nothing, and the counter of the closure ends on that
    level. *)
Theorem download_dots_follow_highest_progress
    (events : list (ServiceClient.Events * list Any)) :
  (ServiceClient.freshListener Any undefined ceilFifth sizeInKB atLeastWarning
     events).1
  = foldr Z.max 0%Z (levels events)
  ∧ dotsWritten
      (ServiceClient.freshListener Any undefined ceilFifth sizeInKB atLeastWarning
         events).2
    = foldr Z.max 0%Z (levels events).
Proof.
  unfold ServiceClient.freshListener.
  destruct (handleAll_dots events 0%Z ltac:(lia)) as [H1 H2].
  assert (H0 : ∀ l : list Z, (0 ≤ foldr Z.max 0 l)%Z).
  { induction l as [|z l IHl]; cbn [foldr]; lia. }
  specialize (H0 (levels events)).
  destruct (handleAll events 0%Z) as [d calls]. cbn [fst snd] in *.
  split; lia.
Qed.

End ServerProviderEventProperties.

(** * The webview editor overlay *)

Section OverlayProperties.
Context {Msg Owner Num ContentOptions URI : Type}.
Context `{!EqDecision Msg, !EqDecision Owner}.
Variable zero : Num.

Import WebviewOverlay.

Abbreviation overlay := (@Overlay Msg Owner Num ContentOptions URI).
Abbreviation operation := (@Operation Msg Owner Num ContentOptions URI).
Abbreviation webviewCall := (@WebviewCall Msg Num ContentOptions).

Ltac close_invariant :=
  repeat match goal with
  | H : is_Some None |- _ => destruct H as [? ?]; discriminate
  | H : is_Some (Some _) → _ |- _ => specialize (H (mk_is_Some _ _ eq_refl))
  | H : ?x = ?x → _ |- _ => specialize (H eq_refl)
  | H : ?P → _, H' : ?P |- _ => specialize (H H')
  | H : _ ∧ _ |- _ => destruct H
  end;
  try done; try congruence; eauto.

Lemma setAdd_NoDup (data : Msg) (s : list Msg) :
  NoDup s → NoDup (setAdd data s).
Proof.
  intros Hs. unfold setAdd. destruct (decide (data ∈ s)); [done|].
  apply NoDup_app. split; [done|]. split; [|apply NoDup_singleton].
  intros x Hx ->%list_elem_of_singleton. done.
Qed.

Lemma setAdd_elem_of (data x : Msg) (s : list Msg) :
  x ∈ setAdd data s ↔ x ∈ s ∨ x = data.
Proof.
  unfold setAdd. destruct (decide (data ∈ s)).
  - split; [by left|]. by intros [?| ->].
  - rewrite elem_of_app, list_elem_of_singleton. done.
Qed.

Lemma step_invariant (op : operation) (o : overlay) :
  invariant o → invariant (step op o).
Proof.
  destruct o as [opts pending webview listeners html scroll state owner co
                 cont disposed fired].
  unfold invariant. cbn. intros (? & ? & ? & ? & ? & ?).
  destruct op as [a|a| | | | |m| | | | | | |e]; cbn;
    unfold claim, release, show, set_html, set_initialScrollProgress, set_state,
      set_contentOptions, sendMessage, update, withWebview, webviewRaises,
      touchContainer, setVisibility; cbn.
  all: repeat match goal with
       | |- context [decide ?P] => destruct (decide P); subst
       | |- context [match ?w with Some _ => _ | None => _ end] =>
           destruct w eqn:?
       | |- context [match ?e with DidFocus => _ | _ => _ end] => destruct e
       | |- context [if ?b then _ else _] => destruct b eqn:?
       end; cbn in *.
  all: repeat split; intros; simplify_eq/=;
         eauto using setAdd_NoDup, NoDup_nil_2; close_invariant.
Qed.

Lemma new_invariant (opts : WebviewOptions) (co : ContentOptions) :
  invariant (new zero opts co : overlay).
Proof.
  unfold invariant. cbn.
  repeat split; try done; try (by intros [? ?]). constructor.
Qed.

Lemma run_invariant (ops : list operation) (o : overlay) :
  invariant o → invariant (run ops o).
Proof.
  revert o. induction ops as [|op ops IH]; intros o Ho; [done|].
  cbn. apply IH. by apply step_invariant.
Qed.

(** X16: however an overlay is used from its construction on, it listens
    to its webview exactly while it holds one; it holds no pending message
    while it holds a webview, and never the same pending message twice;
    while it has an owner it holds a webview and its container is visible;
    its container is hidden only after a release that retains the context;
    and a webview it holds has a container to be mounted to. *)
Theorem overlay_invariant
    (opts : WebviewOptions) (co : ContentOptions) (ops : list operation) :
  invariant (run ops (new zero opts co)).
Proof. apply run_invariant, new_invariant. Qed.

Lemma sendMessages_pending (ms : list Msg) (o : overlay) :
  _webview o = None →
  foldl (λ o m, sendMessage m o) o ms
  = with_pendingMessages (foldl (λ s m, setAdd m s) (_pendingMessages o) ms) o.
Proof.
  revert o. induction ms as [|m ms IH]; intros o Hw.
  - by destruct o.
  - cbn [foldl].
    assert (Hs : sendMessage m o
                 = with_pendingMessages (setAdd m (_pendingMessages o)) o).
    { unfold sendMessage. by rewrite Hw. }
    rewrite Hs, IH by (by destruct o).
    by destruct o.
Qed.

Lemma setAddAll_spec (ms s : list Msg) :
  NoDup s →
  NoDup (foldl (λ s m, setAdd m s) s ms)
  ∧ ∀ x, x ∈ foldl (λ s m, setAdd m s) s ms ↔ x ∈ s ∨ x ∈ ms.
Proof.
  revert s. induction ms as [|m ms IH]; intros s Hs; cbn [foldl].
  - split; [done|]. intros x. rewrite elem_of_nil. tauto.
  - destruct (IH (setAdd m s) (setAdd_NoDup m s Hs)) as [Hnd Hin].
    split; [done|]. intros x. rewrite Hin, setAdd_elem_of, elem_of_cons.
    tauto.
Qed.

(** X17: messages sent while the overlay holds no webview are kept and
    handed, at the next claim, to the webview created then, after it has
    been given its state and its html and has been mounted: each distinct
    message once, in the order it was first sent; nothing stays pending. *)
Theorem pending_messages_delivered_once
    (o : overlay) (ms : list Msg) (owner : option Owner) :
  _webview o = None →
  _pendingMessages o = [] →
  let delivered := foldl (λ s m, setAdd m s) [] ms in
  let o' := claim owner (foldl (λ o m, sendMessage m o) o ms) in
  _webview o' = Some (initialCalls o ++ (SendMessage <$> delivered))
  ∧ _pendingMessages o' = []
  ∧ NoDup delivered
  ∧ ∀ m, m ∈ delivered ↔ m ∈ ms.
Proof.
  intros Hw Hp delivered o'.
  destruct (setAddAll_spec ms [] (NoDup_nil_2)) as [Hnd Hin].
  assert (Ho' : o' = claim owner (with_pendingMessages delivered o)).
  { unfold o'. by rewrite (sendMessages_pending ms o Hw), Hp. }
  rewrite Ho'. clear Ho' o'.
  destruct o as [opts pending webview listeners html scroll state owner0 co
                 cont disposed fired].
  cbn in Hw, Hp. subst webview pending.
  repeat split; try done.
  - unfold claim, show, initialCalls. destruct cont; cbn;
      by rewrite <- !app_assoc.
  - unfold claim, show. by destruct cont.
  - intros Hm. apply Hin in Hm as [Hm|Hm]; [by apply elem_of_nil in Hm|done].
  - intros Hm. apply Hin. by right.
Qed.

Lemma webviewRaises_listening (e : WebviewEvent) (o : overlay) :
  _webviewEvents o = allListeners →
  webviewRaises e o
  = with_fired (fired o ++ [e])
      match e with
      | DidScroll x => with_initialScrollProgress x o
      | DidUpdateState state => with_state state o
      | _ => o
      end.
Proof.
  intros Hl. unfold webviewRaises. rewrite Hl.
  rewrite decide_True by (unfold allListeners; destruct e; repeat constructor).
  by destruct e, o.
Qed.

(** X18: when the context is not retained, a release by the owner disposes
    of the webview, and the webview created at the next claim is given what
    the overlay last knew: the state and the scroll position the old webview
    reported, the latter only if the options ask to restore it, and the
    html last set. *)
Theorem state_survives_release_and_claim
    (o : overlay) (calls : list webviewCall) (owner' : option Owner)
    (s : option string) (x : Num) :
  invariant o →
  _webview o = Some calls →
  retainContextWhenHidden (options o) = false →
  let o1 := webviewRaises (DidUpdateState s) (webviewRaises (DidScroll x) o) in
  let o2 := release (_owner o) o1 in
  let o3 := claim owner' o2 in
  _webview o2 = None
  ∧ _webview o3
    = Some ([Created (_contentOptions o); SetState s; SetHtml (_html o)]
            ++ (if tryRestoreScrollPosition (options o)
                then [SetInitialScrollProgress x] else [])
            ++ [MountTo])
  ∧ disposedWebviews o3 = disposedWebviews o ++ [calls ++ [Dispose]]
  ∧ _owner o3 = owner'.
Proof.
  intros (Hl & Hp & _) Hw Hr o1 o2 o3.
  rewrite Hw in Hl. specialize (Hp ltac:(by rewrite Hw)).
  subst o3 o2 o1.
  rewrite (webviewRaises_listening (DidScroll x) o Hl).
  rewrite (webviewRaises_listening (DidUpdateState s)) by (by destruct o).
  destruct o as [opts pending webview listeners html scroll state owner co
                 cont disposed fired].
  cbn in Hw, Hp, Hr. subst webview pending.
  unfold release, claim, show. cbn.
  rewrite decide_True by done. cbn. rewrite Hr. cbn.
  by destruct cont, (tryRestoreScrollPosition opts).
Qed.

(** X19: when the context is retained, a release by the owner keeps the
    webview and only hides the container; a message sent while it is hidden
    goes to that webview at once; and the next claim shows the same
    webview again without creating or disposing of one. *)
Theorem retained_webview_is_reused
    (o : overlay) (calls : list webviewCall) (owner' : option Owner) (m : Msg) :
  _webview o = Some calls →
  retainContextWhenHidden (options o) = true →
  let o1 := release (_owner o) o in
  let o2 := sendMessage m o1 in
  let o3 := claim owner' o2 in
  _webview o1 = Some calls
  ∧ container o1 = Some VisibilityHidden
  ∧ _webview o2 = Some (calls ++ [SendMessage m])
  ∧ _pendingMessages o2 = _pendingMessages o
  ∧ _webview o3 = Some (calls ++ [SendMessage m])
  ∧ container o3 = Some VisibilityVisible
  ∧ disposedWebviews o3 = disposedWebviews o.
Proof.
  intros Hw Hr o1 o2 o3. subst o3 o2 o1.
  destruct o as [opts pending webview listeners html scroll state owner co
                 cont disposed fired].
  cbn in Hw, Hr. subst webview.
  unfold release, sendMessage, claim, show. cbn.
  rewrite decide_True by done. cbn. rewrite Hr. cbn. done.
Qed.

(** X20: only the current owner can release the overlay: once another
    owner has claimed it, a release by the earlier one changes nothing, and
    the overlay still holds a webview in a visible container. *)
Theorem release_by_former_owner_is_ignored (o : overlay) (a b : option Owner) :
  a ≠ b →
  release a (claim b (claim a o)) = claim b (claim a o)
  ∧ _owner (claim b (claim a o)) = b
  ∧ is_Some (_webview (claim b (claim a o)))
  ∧ container (claim b (claim a o)) = Some VisibilityVisible.
Proof.
  intros Hab.
  destruct o as [opts pending webview listeners html scroll state owner co
                 cont disposed fired].
  unfold release, claim, show. cbn.
  destruct webview as [calls|], cont as [v|]; cbn;
    rewrite decide_False by done; done.
Qed.

(** X21: [update] changes the content options a later webview is created
    with, but not the html it is given: after an update, a release without
    retained context and a new claim, the new webview is created with the
    updated options and set to the html last assigned through the html
    setter, not to the value of the update. *)
Theorem update_does_not_store_html
    (o : overlay) (calls : list webviewCall) (owner' : option Owner)
    (value : string) (co : ContentOptions) (retain : bool) :
  _webview o = Some calls →
  _pendingMessages o = [] →
  retainContextWhenHidden (options o) = false →
  let o1 := update value co retain o in
  let o3 := claim owner' (release (_owner o) o1) in
  _webview o1 = Some (calls ++ [Update value co retain])
  ∧ _html o1 = _html o
  ∧ _webview o3
    = Some ([Created co; SetState (_state o); SetHtml (_html o)]
            ++ (if tryRestoreScrollPosition (options o)
                then [SetInitialScrollProgress (_initialScrollProgress o)] else [])
            ++ [MountTo]).
Proof.
  intros Hw Hp Hr o1 o3. subst o3 o1.
  destruct o as [opts pending webview listeners html scroll state owner co0
                 cont disposed fired].
  cbn in Hw, Hp, Hr. subst webview pending.
  unfold update, withWebview, release, claim, show. cbn.
  rewrite decide_True by done. cbn. rewrite Hr. cbn.
  by destruct cont, (tryRestoreScrollPosition opts).
Qed.

(** X22: after a release by the owner without retained context the
    overlay no longer listens to the webview it disposed of: an event that
    webview still raises changes nothing, neither the recorded state or
    scroll position nor what the overlay has fired. *)
Theorem events_after_release_are_ignored (o : overlay) (e : WebviewEvent) :
  retainContextWhenHidden (options o) = false →
  webviewRaises e (release (_owner o) o) = release (_owner o) o.
Proof.
  intros Hr.
  destruct o as [opts pending webview listeners html scroll state owner co
                 cont disposed fired].
  cbn in Hr. unfold release. cbn.
  rewrite decide_True by done. cbn. rewrite Hr.
  unfold webviewRaises.
  destruct webview as [calls|]; cbn; rewrite decide_False; try done;
    by intros ?%elem_of_nil.
Qed.

(** X23: claiming twice and releasing twice are claiming and releasing
    once: a second claim by the same owner creates no second webview, and a
    second release disposes of nothing more. *)
Theorem claim_and_release_are_idempotent (o : overlay) (a : option Owner) :
  claim a (claim a o) = claim a o
  ∧ release a (release a o) = release a o.
Proof.
  destruct o as [opts pending webview listeners html scroll state owner co
                 cont disposed fired].
  split.
  - unfold claim, show. by destruct webview as [calls|], cont as [v|].
  - unfold release. cbn.
    destruct (decide (owner = a)) as [->|Hne]; cbn.
    + destruct (retainContextWhenHidden opts) eqn:Hr; cbn.
      * destruct (decide (None = a)); cbn; by rewrite ?Hr.
      * destruct webview as [calls|]; cbn;
          destruct (decide (None = a)); cbn; by rewrite ?Hr.
    + by rewrite decide_False.
Qed.

End OverlayProperties.

Lemma pending_messages_delivered_once_witness :
  WebviewOverlay._webview (freshOverlay false true) = None
  ∧ WebviewOverlay._pendingMessages (freshOverlay false true) = []
  ∧ WebviewOverlay._webview
      (WebviewOverlay.claim (Some 7)
         (foldl (λ o m, WebviewOverlay.sendMessage m o)
            (freshOverlay false true) [1; 2; 1]))
    = Some (WebviewOverlay.initialCalls (freshOverlay false true)
            ++ [WebviewOverlay.SendMessage 1; WebviewOverlay.SendMessage 2]).
Proof.
  split; [reflexivity|]. split; [reflexivity|].
  pose proof (pending_messages_delivered_once (freshOverlay false true)
                [1; 2; 1] (Some 7) eq_refl eq_refl) as (H & _).
  exact H.
Defined.

Lemma state_survives_release_and_claim_witness :
  WebviewOverlay.invariant shownOverlay
  ∧ WebviewOverlay._webview shownOverlay
    = Some (WebviewOverlay.initialCalls (freshOverlay false true))
  ∧ WebviewOverlay.retainContextWhenHidden (WebviewOverlay.options shownOverlay)
    = false
  ∧ WebviewOverlay._webview
      (WebviewOverlay.claim (Some 2)
         (WebviewOverlay.release (Some 1)
            (WebviewOverlay.webviewRaises (WebviewOverlay.DidUpdateState (Some "s"))
               (WebviewOverlay.webviewRaises (WebviewOverlay.DidScroll 5%Z)
                  shownOverlay))))
    = Some [WebviewOverlay.Created "options"; WebviewOverlay.SetState (Some "s");
            WebviewOverlay.SetHtml ""; WebviewOverlay.SetInitialScrollProgress 5%Z;
            WebviewOverlay.MountTo].
Proof.
  assert (Hinv : WebviewOverlay.invariant shownOverlay).
  { apply (step_invariant (WebviewOverlay.OpClaim (Some 1))), new_invariant. }
  split; [exact Hinv|]. split; [reflexivity|]. split; [reflexivity|].
  pose proof (state_survives_release_and_claim shownOverlay
                (WebviewOverlay.initialCalls (freshOverlay false true))
                (Some 2) (Some "s") 5%Z Hinv eq_refl eq_refl) as (_ & H & _).
  exact H.
Defined.

Lemma retained_webview_is_reused_witness :
  WebviewOverlay._webview retainingOverlay
  = Some (WebviewOverlay.initialCalls (freshOverlay true false))
  ∧ WebviewOverlay.retainContextWhenHidden (WebviewOverlay.options retainingOverlay)
    = true
  ∧ WebviewOverlay._webview
      (WebviewOverlay.claim (Some 2)
         (WebviewOverlay.sendMessage 9
            (WebviewOverlay.release (Some 1) retainingOverlay)))
    = Some (WebviewOverlay.initialCalls (freshOverlay true false)
            ++ [WebviewOverlay.SendMessage 9]).
Proof.
  split; [reflexivity|]. split; [reflexivity|].
  pose proof (retained_webview_is_reused retainingOverlay
                (WebviewOverlay.initialCalls (freshOverlay true false))
                (Some 2) 9 eq_refl eq_refl) as (_ & _ & _ & _ & H & _).
  exact H.
Defined.

Lemma release_by_former_owner_is_ignored_witness :
  Some 1 ≠ Some 2
  ∧ WebviewOverlay.release (Some 1)
      (WebviewOverlay.claim (Some 2)
         (WebviewOverlay.claim (Some 1) (freshOverlay false true)))
    = WebviewOverlay.claim (Some 2)
        (WebviewOverlay.claim (Some 1) (freshOverlay false true)).
Proof.
  split; [discriminate|].
  pose proof (release_by_former_owner_is_ignored (freshOverlay false true)
                (Some 1) (Some 2) ltac:(discriminate)) as (H & _).
  exact H.
Defined.

Lemma events_after_release_are_ignored_witness :
  WebviewOverlay.retainContextWhenHidden (WebviewOverlay.options shownOverlay)
  = false
  ∧ WebviewOverlay.webviewRaises (WebviewOverlay.DidScroll 3%Z)
      (WebviewOverlay.release (Some 1) shownOverlay)
    = WebviewOverlay.release (Some 1) shownOverlay.
Proof.
  split; [reflexivity|].
  apply (events_after_release_are_ignored shownOverlay
           (WebviewOverlay.DidScroll 3%Z)).
  reflexivity.
Defined.

Lemma update_does_not_store_html_witness :
  WebviewOverlay._webview shownOverlay
  = Some (WebviewOverlay.initialCalls (freshOverlay false true))
  ∧ WebviewOverlay._pendingMessages shownOverlay = []
  ∧ WebviewOverlay.retainContextWhenHidden (WebviewOverlay.options shownOverlay)
    = false
  ∧ WebviewOverlay._webview
      (WebviewOverlay.claim (Some 2)
         (WebviewOverlay.release (Some 1)
            (WebviewOverlay.update "<p>new</p>" "other options" false shownOverlay)))
    = Some [WebviewOverlay.Created "other options"; WebviewOverlay.SetState None;
            WebviewOverlay.SetHtml ""; WebviewOverlay.SetInitialScrollProgress 0%Z;
            WebviewOverlay.MountTo].
Proof.
  split; [reflexivity|]. split; [reflexivity|]. split; [reflexivity|].
  pose proof (update_does_not_store_html shownOverlay
                (WebviewOverlay.initialCalls (freshOverlay false true))
                (Some 2) "<p>new</p>" "other options" false
                eq_refl eq_refl eq_refl) as (_ & _ & H).
  exact H.
Defined.
